(** * memobase_add: the LoCoMo ingestion script of the memobase client

    A shallow embedding of
    [docs/experiments/locomo-benchmark/src/memobase_client/memobase_add.py]:
    the retrying send ([add_memory]), the batch uploader
    ([add_memories_for_speaker]), the conversation processor
    ([process_conversation]) and the dataset driver
    ([process_all_conversations]).

    The script is orchestration code around an external service, so the
    embedding is a state-and-exception monad over the chronological history of
    external calls; what the service, the file system and the thread
    primitives answer is a parameter of the development. *)

From Stdlib Require Import ZArith List String Ascii Bool Lia DecimalString.
From Stdlib Require DecimalPos DecimalZ.
Import ListNotations.
Local Open Scope string_scope.
Local Open Scope list_scope.
Local Open Scope Z_scope.

Set Implicit Arguments.

(* ================================================================== *)
(** ** Python primitives used by the script *)
(* ================================================================== *)

Module Py.

(** Exceptions (instances of [Exception]) the script can see. *)
Inductive exn : Type :=
| ValueError (msg : string)
| KeyError (key : string)
| TypeError (msg : string)
| OtherError (cls msg : string).

(** [str(e)], as interpolated into the log line of the profile step. *)
Definition str_exn (e : exn) : string :=
  match e with
  | ValueError msg => msg
  | KeyError key => ("'" ++ key ++ "'")%string
  | TypeError msg => msg
  | OtherError _ msg => msg
  end.

(** The outcome of evaluating a Python expression or call. *)
Inductive except (A : Type) : Type :=
| Returns (a : A)
| Raises (e : exn).
Arguments Returns {A} a.
Arguments Raises {A} e.

(** [range_from fuel i stop step] unrolls the iteration of a range with a
    positive step: yield [i] while [i < stop], then advance by [step]. *)
Fixpoint range_from (fuel : nat) (i stop step : Z) : list Z :=
  match fuel with
  | O => []
  | S fuel' =>
      if i <? stop then i :: range_from fuel' (i + step) stop step else []
  end.

(** The same for a negative step: yield [i] while [i > stop]. *)
Fixpoint range_down (fuel : nat) (i stop step : Z) : list Z :=
  match fuel with
  | O => []
  | S fuel' =>
      if stop <? i then i :: range_down fuel' (i + step) stop step else []
  end.

(** [range(start, stop, step)]; a zero step raises [ValueError]. *)
Definition range3 (start stop step : Z) : except (list Z) :=
  if step =? 0 then Raises (ValueError "range() arg 3 must not be zero")
  else if 0 <? step
       then Returns (range_from (Z.to_nat (stop - start)) start stop step)
       else Returns (range_down (Z.to_nat (start - stop)) start stop step).

(** [range(n)]. *)
Definition range (n : Z) : list Z :=
  range_from (Z.to_nat n) 0 n 1.

(** How a slice bound is adjusted to a sequence of length [len]: a negative
    bound counts from the end, and every bound is clamped to [0..len]. *)
Definition adjust_index (len k : Z) : Z :=
  if k <? 0 then Z.max 0 (k + len) else Z.min k len.

(** [l[lo:hi]], either bound possibly omitted. *)
Definition slice {A : Type} (l : list A) (lo hi : option Z) : list A :=
  let len := Z.of_nat (List.length l) in
  let lo' := match lo with None => 0 | Some k => adjust_index len k end in
  let hi' := match hi with None => len | Some k => adjust_index len k end in
  firstn (Z.to_nat (hi' - lo')) (skipn (Z.to_nat lo') l).

(** [enumerate(l)], counting from [start]. *)
Fixpoint enumerate_from {A : Type} (start : Z) (l : list A) : list (Z * A) :=
  match l with
  | [] => []
  | x :: l' => (start, x) :: enumerate_from (start + 1) l'
  end.

Definition enumerate {A : Type} (l : list A) : list (Z * A) :=
  enumerate_from 0 l.

(** [needle in hay] on strings: [needle] occurs as a substring. *)
Fixpoint contains (needle hay : string) : bool :=
  String.prefix needle hay ||
  match hay with
  | EmptyString => false
  | String _ hay' => contains needle hay'
  end.

(** [key in keys] on a list of strings. *)
Definition mem (key : string) (keys : list string) : bool :=
  existsb (String.eqb key) keys.

(** [str(n)] of an integer, as interpolated by an f-string. *)
Definition str_int (n : Z) : string :=
  NilZero.string_of_int (Z.to_int n).

End Py.
Import Py.

(* ================================================================== *)
(** ** Data model *)
(* ================================================================== *)

(** One chat turn of a segment: [{"speaker": ..., "text": ...}]. *)
Record Chat : Type := mkChat {
  chat_speaker : string;
  chat_text : string
}.

(** A value stored under a key of the conversation object: a string (the
    [<segment>_date_time] fields) or an array of chat turns (the segments). *)
Inductive jvalue : Type :=
| JString (s : string)
| JTurns (chats : list Chat).

(** The [conversation] object of a dataset record.  [speaker_a] and
    [speaker_b] are its two speaker-name fields; [entries] are its remaining
    keys with their values, in the order of the JSON object. *)
Record Conversation : Type := mkConversation {
  speaker_a : string;
  speaker_b : string;
  entries : list (string * jvalue)
}.

(** A dataset record: [item["conversation"]]. *)
Record Item : Type := mkItem {
  conversation : Conversation
}.

(** The dictionary appended to [messages] / [messages_reverse]. *)
Record Message : Type := mkMessage {
  role : string;
  content : string;
  alias : string;
  created_at : jvalue
}.

(** The session handle returned by [get_or_create_user]. *)
Record User : Type := mkUser {
  user_id : string
}.

(** The profile returned by [user.profile(need_json=True)]: opaque JSON. *)
Definition Profile : Type := string.

(** [conversation.keys()]. *)
Definition keys (c : Conversation) : list string :=
  "speaker_a" :: "speaker_b" :: map fst (entries c).

(** Lookup in the entries of the object, first binding of the key. *)
Fixpoint lookup (key : string) (kvs : list (string * jvalue)) : option jvalue :=
  match kvs with
  | [] => None
  | (k, v) :: kvs' => if String.eqb key k then Some v else lookup key kvs'
  end.

(** [conversation[key]]: raises [KeyError] on a missing key. *)
Definition getitem (c : Conversation) (key : string) : except jvalue :=
  if String.eqb key "speaker_a" then Returns (JString (speaker_a c))
  else if String.eqb key "speaker_b" then Returns (JString (speaker_b c))
  else match lookup key (entries c) with
       | Some v => Returns v
       | None => Raises (KeyError key)
       end.

(* ================================================================== *)
(** ** External calls and the effect monad *)
(* ================================================================== *)

(** The calls the script makes to the outside: the memobase client and its
    user sessions, the file system, the clock and standard output. *)
Inductive call : Type :=
| GetOrCreateUser (uid : string)
| Insert (u : User) (blob : list Message)
| Flush (u : User)
| GetProfile (u : User)
| DeleteUser (uid : string)
| Makedirs (path : string)
| WriteJson (path : string) (data : Profile)
| Sleep (seconds : Z)
| Print (line : string)
| Submit (item : Item) (idx : Z).

Inductive outcome : Type :=
| Done
| Failed (e : exn).

(** One external call together with how it ended. *)
Definition event : Type := (call * outcome)%type.

(** The calls made so far, oldest first. *)
Definition history : Type := list event.

(** What the outside answers.  Each answer may depend on everything that
    happened before, so any deterministic service is an instance. *)
Record World : Type := mkWorld {
  (** the session [client.get_or_create_user(uid)] returns *)
  user_reply : history -> string -> except User;
  (** the structure [u.profile(need_json=True)] returns *)
  profile_reply : history -> User -> except Profile;
  (** whether a call without a result ([insert], [flush], [delete_user],
      [os.makedirs], writing the JSON file) raises *)
  fault : history -> call -> option exn
}.

(** Computations: from the history so far to an outcome and the history
    extended by the calls made. *)
Definition M (A : Type) : Type := history -> except A * history.

Definition ret {A : Type} (a : A) : M A := fun h => (Returns a, h).

Definition raise {A : Type} (e : exn) : M A := fun h => (Raises e, h).

Definition bind {A B : Type} (m : M A) (k : A -> M B) : M B :=
  fun h =>
    match m h with
    | (Returns a, h') => k a h'
    | (Raises e, h') => (Raises e, h')
    end.

(** [try: m  except Exception as e: ...]: the outcome of [m] as a value. *)
Definition try {A : Type} (m : M A) : M (except A) :=
  fun h => let (r, h') := m h in (Returns r, h').

(** Lifting of a pure expression that may raise. *)
Definition lift {A : Type} (r : except A) : M A := fun h => (r, h).

Declare Scope prog_scope.
Delimit Scope prog_scope with prog.
Notation "x <- m ;; k" := (bind m (fun x => k))
  (at level 100, m at next level, right associativity) : prog_scope.
Notation "m ;; k" := (bind m (fun _ => k))
  (at level 100, right associativity) : prog_scope.
Local Open Scope prog_scope.

(** [for x in xs: body x], left to right, stopping at the first exception. *)
Fixpoint for_each {A : Type} (xs : list A) (body : A -> M unit) : M unit :=
  match xs with
  | [] => ret tt
  | x :: xs' => body x ;; for_each xs' body
  end.

(** A call that cannot fail ([time.sleep], [print]). *)
Definition emit (c : call) : M unit :=
  fun h => (Returns tt, h ++ [(c, Done)]).

(** A call without a result that the world may fail. *)
Definition perform (w : World) (c : call) : M unit :=
  fun h =>
    match fault w h c with
    | None => (Returns tt, h ++ [(c, Done)])
    | Some e => (Raises e, h ++ [(c, Failed e)])
    end.

(** [client.get_or_create_user(uid)]. *)
Definition get_or_create_user (w : World) (uid : string) : M User :=
  fun h =>
    match user_reply w h uid with
    | Returns u => (Returns u, h ++ [(GetOrCreateUser uid, Done)])
    | Raises e => (Raises e, h ++ [(GetOrCreateUser uid, Failed e)])
    end.

(** [u.profile(need_json=True)]. *)
Definition profile (w : World) (u : User) : M Profile :=
  fun h =>
    match profile_reply w h u with
    | Returns p => (Returns p, h ++ [(GetProfile u, Done)])
    | Raises e => (Raises e, h ++ [(GetProfile u, Failed e)])
    end.

(* ================================================================== *)
(** ** The script *)
(* ================================================================== *)

(** Default of the [salt] argument of [string_to_uuid]. *)
Definition default_salt : string := "memobase_client".

(** Default of the [retries] argument of [add_memory]. *)
Definition default_retries : Z := 3.

(** Default of the [batch_size] argument of the constructor. *)
Definition default_batch_size : Z := 2.

(** Default of the [max_workers] argument of [process_all_conversations]. *)
Definition default_max_workers : Z := 10.

(** The arguments handed to one [threading.Thread] whose target is
    [add_memories_for_speaker]: speaker, messages, desc. *)
Definition thread_args : Type := (string * list Message * string)%type.

(** [chats = conversation[key]] as the sequence the loop [for chat in chats]
    walks.  Iterating a string yields one-character strings, and subscripting
    one with ["speaker"] raises [TypeError] at the first turn; the empty
    string has no turn. *)
Definition turns_of (v : jvalue) : except (list Chat) :=
  match v with
  | JTurns chats => Returns chats
  | JString EmptyString => Returns []
  | JString _ => Raises (TypeError "string indices must be integers, not 'str'")
  end.

(** The loop [for chat in chats] of [process_conversation] with its two
    accumulators [messages] and [messages_reverse]. *)
Fixpoint split_chats (speaker_a speaker_b : string) (timestamp : jvalue)
    (chats : list Chat) (messages messages_reverse : list Message)
  : except (list Message * list Message) :=
  match chats with
  | [] => Returns (messages, messages_reverse)
  | chat :: chats' =>
      if String.eqb (chat_speaker chat) speaker_a then
        split_chats speaker_a speaker_b timestamp chats'
          (messages ++ [mkMessage "user" (chat_text chat) speaker_a timestamp])
          messages_reverse
      else if String.eqb (chat_speaker chat) speaker_b then
        split_chats speaker_a speaker_b timestamp chats'
          messages
          (messages_reverse
             ++ [mkMessage "user" (chat_text chat) speaker_b timestamp])
      else
        Raises (ValueError ("Unknown speaker: " ++ chat_speaker chat)%string)
  end.

(** [if not self.data]: [None] (never loaded) and the empty array are false. *)
Definition data_truthy (data : option (list Item)) : bool :=
  match data with
  | None => false
  | Some [] => false
  | Some (_ :: _) => true
  end.

(** [if max_samples]: [None] and [0] are false. *)
Definition samples_truthy (max_samples : option Z) : bool :=
  match max_samples with
  | None => false
  | Some n => negb (n =? 0)
  end.

Section Program.

(** [str(uuid.uuid5(uuid.NAMESPACE_DNS, name))]. *)
Variable uuid5 : string -> string.

(** The service, the file system and their failures. *)
Variable world : World.

(** [self.batch_size]. *)
Variable batch_size : Z.

(** The two [threading.Thread]s of one segment: both started on [target]
    with their arguments, then both joined.  How the two interleave is left
    to the instance. *)
Variable run_threads :
  (string -> list Message -> string -> M unit) ->
  thread_args -> thread_args -> M unit.

(** The [ThreadPoolExecutor] block: every task submitted in list order,
    then every future's result collected in the same order. *)
Variable executor :
  Z -> (Item -> Z -> M unit) -> list (Item * Z) -> M unit.

Definition string_to_uuid (s salt : string) : string :=
  uuid5 (s ++ salt)%string.

(** The loop [for attempt in range(retries)] of [add_memory], over the
    attempts still to make.  [ChatBlob(messages=message)] is the payload of
    the insert. *)
Fixpoint add_memory_attempts (user : User) (message : list Message)
    (retries : Z) (attempts : list Z) : M unit :=
  match attempts with
  | [] => ret tt
  | attempt :: attempts' =>
      r <- try (perform world (Insert user message)) ;;
      match r with
      | Returns _ => ret tt
      | Raises e =>
          if attempt <? retries - 1
          then emit (Sleep 1) ;;
               add_memory_attempts user message retries attempts'
          else raise e
      end
  end.

Definition add_memory (user : User) (message : list Message) (retries : Z)
  : M unit :=
  add_memory_attempts user message retries (range retries).

(** The progress bar of [tqdm] only displays; it is left out. *)
Definition add_memories_for_speaker (speaker : string)
    (messages : list Message) (desc : string) : M unit :=
  let real_uid := string_to_uuid speaker default_salt in
  u <- get_or_create_user world real_uid ;;
  starts <- lift (range3 0 (Z.of_nat (List.length messages)) batch_size) ;;
  for_each starts (fun i =>
    let batch_messages := slice messages (Some i) (Some (i + batch_size)) in
    add_memory u batch_messages default_retries) ;;
  perform world (Flush u) ;;
  perform world (Makedirs "memobase_memories") ;;
  r <- try (
    profile_data <- profile world u ;;
    perform world
      (WriteJson ("memobase_memories/" ++ user_id u ++ ".json")%string
                 profile_data) ;;
    emit (Print ("Profile saved for user " ++ user_id u)%string)) ;;
  match r with
  | Returns _ => ret tt
  | Raises e =>
      emit (Print ("Failed to save profile for user " ++ user_id u
                     ++ ": " ++ str_exn e)%string)
  end.

(** The body of the loop [for key in conversation.keys()]. *)
Definition process_key (conversation : Conversation)
    (speaker_a_user_id speaker_b_user_id : string) (key : string) : M unit :=
  if mem key ["speaker_a"; "speaker_b"]
     || contains "date" key || contains "timestamp" key
  then ret tt
  else
    let date_time_key := (key ++ "_date_time")%string in
    timestamp <- lift (getitem conversation date_time_key) ;;
    chats <- lift (getitem conversation key) ;;
    turns <- lift (turns_of chats) ;;
    split <- lift (split_chats (speaker_a conversation)
                     (speaker_b conversation) timestamp turns [] []) ;;
    let messages := fst split in
    let messages_reverse := snd split in
    run_threads add_memories_for_speaker
      (speaker_a_user_id, messages, "Adding Memories for Speaker A")
      (speaker_b_user_id, messages_reverse, "Adding Memories for Speaker B").

Definition process_conversation (item : Item) (idx : Z) : M unit :=
  let conversation := conversation item in
  let speaker_a := speaker_a conversation in
  let speaker_b := speaker_b conversation in
  let speaker_a_user_id := (speaker_a ++ "_" ++ str_int idx)%string in
  let speaker_b_user_id := (speaker_b ++ "_" ++ str_int idx)%string in
  try (
    perform world
      (DeleteUser (string_to_uuid speaker_a_user_id default_salt)) ;;
    perform world
      (DeleteUser (string_to_uuid speaker_b_user_id default_salt))) ;;
  for_each (keys conversation)
    (process_key conversation speaker_a_user_id speaker_b_user_id) ;;
  emit (Print "Messages added successfully").

(** [self.data] is passed in; the assignment
    [self.data = self.data[:max_samples]] is the second [let]. *)
Definition process_all_conversations (data : option (list Item))
    (max_workers : Z) (max_samples : option Z) : M unit :=
  if negb (data_truthy data) then
    raise (ValueError
      "No data loaded. Please set data_path and call load_data() first.")
  else
    let data := match data with Some d => d | None => [] end in
    let data :=
      if samples_truthy max_samples then slice data None max_samples
      else data in
    executor max_workers process_conversation
      (map (fun p => (snd p, fst p)) (enumerate data)).

End Program.

(* ================================================================== *)
(** ** A schedule for the threads and the pool *)
(* ================================================================== *)

(** An exception that escapes a thread's target is reported by the
    threading module's hook on standard error and ends that thread only;
    [join] returns normally. *)
Definition in_thread (target : string -> list Message -> string -> M unit)
    (args : thread_args) : M unit :=
  _ <- try (target (fst (fst args)) (snd (fst args)) (snd args)) ;;
  ret tt.

(** The schedule in which the first thread finishes before the second one
    runs. *)
Definition one_after_the_other
    (target : string -> list Message -> string -> M unit)
    (a b : thread_args) : M unit :=
  in_thread target a ;; in_thread target b.

(** Every task of the pool run to completion, in submission order, each
    outcome kept in its future. *)
Fixpoint run_tasks (task : Item -> Z -> M unit) (args : list (Item * Z))
  : M (list (except unit)) :=
  match args with
  | [] => ret []
  | (item, idx) :: args' =>
      r <- try (task item idx) ;;
      rs <- run_tasks task args' ;;
      ret (r :: rs)
  end.

(** [for future in futures: future.result()]: the first stored exception, in
    submission order, is raised. *)
Fixpoint drain (futures : list (except unit)) : M unit :=
  match futures with
  | [] => ret tt
  | Returns _ :: futures' => drain futures'
  | Raises e :: _ => raise e
  end.

(** The pool under the schedule in which every [executor.submit] is made
    before the first task starts and the tasks then run one at a time. *)
Definition one_worker (max_workers : Z) (task : Item -> Z -> M unit)
    (args : list (Item * Z)) : M unit :=
  for_each args (fun a => emit (Submit (fst a) (snd a))) ;;
  futures <- run_tasks task args ;;
  drain futures.

(* ================================================================== *)
(** ** Sample worlds *)
(* ================================================================== *)

Module Sample.

(** A stand-in for the name-based UUID: the name, tagged. *)
Definition uuid_of (name : string) : string := ("uuid5:" ++ name)%string.

Definition is_insert (c : call) : bool :=
  match c with Insert _ _ => true | _ => false end.

Definition is_flush (c : call) : bool :=
  match c with Flush _ => true | _ => false end.

Definition is_get_profile (c : call) : bool :=
  match c with GetProfile _ => true | _ => false end.

Definition is_write (c : call) : bool :=
  match c with WriteJson _ _ => true | _ => false end.

Definition is_delete (c : call) : bool :=
  match c with DeleteUser _ => true | _ => false end.

Definition unavailable : exn := OtherError "ServerError" "503".

(** Nothing ever fails; a session carries the identifier it was asked
    for. *)
Definition calm : World :=
  {| user_reply := fun _ uid => Returns (mkUser uid);
     profile_reply := fun _ _ => Returns "{}";
     fault := fun _ _ => None |}.

(** The first [n] inserts fail, numbered in the error message; everything
    else works. *)
Definition flaky (n : nat) : World :=
  {| user_reply := fun _ uid => Returns (mkUser uid);
     profile_reply := fun _ _ => Returns "{}";
     fault := fun h c =>
       let seen := List.length (filter (fun ev => is_insert (fst ev)) h) in
       if is_insert c && (seen <? n)%nat
       then Some (OtherError "ServerError"
                    ("insert " ++ str_int (Z.of_nat (S seen)))%string)
       else None |}.

(** Every call accepted by [broken] fails; everything else works. *)
Definition failing (broken : call -> bool) : World :=
  {| user_reply := fun _ uid => Returns (mkUser uid);
     profile_reply := fun _ u =>
       if broken (GetProfile u) then Raises unavailable else Returns "{}";
     fault := fun _ c => if broken c then Some unavailable else None |}.

(** Only the first [delete_user] fails. *)
Definition first_delete_fails : World :=
  {| user_reply := fun _ uid => Returns (mkUser uid);
     profile_reply := fun _ _ => Returns "{}";
     fault := fun h c =>
       if is_delete c
          && negb (existsb (fun ev => is_delete (fst ev)) h)
       then Some unavailable else None |}.

Definition msg (text who : string) : Message :=
  mkMessage "user" text who (JString "t1").

Definition alice : User := mkUser "alice".

(** The conversation of the end-to-end example. *)
Definition hi_yo : Item :=
  mkItem (mkConversation "A" "B"
    [ ("seg1", JTurns [mkChat "A" "hi"; mkChat "B" "yo"]);
      ("seg1_date_time", JString "t1") ]).

(** A conversation whose second segment has a turn of a third speaker. *)
Definition with_stranger : Item :=
  mkItem (mkConversation "A" "B"
    [ ("seg1", JTurns [mkChat "A" "hi"; mkChat "B" "yo"]);
      ("seg1_date_time", JString "t1");
      ("seg2", JTurns [mkChat "A" "again"; mkChat "C" "hello"]);
      ("seg2_date_time", JString "t2");
      ("seg3", JTurns [mkChat "B" "late"]);
      ("seg3_date_time", JString "t3") ]).

End Sample.

(* ================================================================== *)
(** ** Observations on histories *)
(* ================================================================== *)

(** The events a run added to the history [h] it started from. *)
Definition new_events (h h' : history) : history :=
  skipn (List.length h) h'.

(** The payloads of the insert calls, in order, failed attempts included. *)
Definition inserts (t : history) : list (list Message) :=
  flat_map (fun ev => match fst ev with
                      | Insert _ blob => [blob]
                      | _ => []
                      end) t.

(** The payloads of the insert calls that succeeded, in order. *)
Definition sent (t : history) : list (list Message) :=
  flat_map (fun ev => match ev with
                      | (Insert _ blob, Done) => [blob]
                      | _ => []
                      end) t.

(** The records handed to [executor.submit], with their index, in order. *)
Definition submissions (t : history) : list (Item * Z) :=
  flat_map (fun ev => match fst ev with
                      | Submit item idx => [(item, idx)]
                      | _ => []
                      end) t.

(** The identities [delete_user] was called on, in order. *)
Definition deletions (t : history) : list string :=
  flat_map (fun ev => match fst ev with
                      | DeleteUser uid => [uid]
                      | _ => []
                      end) t.

(** Calls made by the retrying send: inserts and the sleeps between them. *)
Definition is_send_call (ev : event) : bool :=
  match fst ev with
  | Insert _ _ => true
  | Sleep _ => true
  | _ => false
  end.

(** An insert attempt that failed. *)
Definition is_failed_insert (ev : event) : bool :=
  match ev with
  | (Insert _ _, Failed _) => true
  | _ => false
  end.

(** The flush of a session. *)
Definition is_flush_call (ev : event) : bool :=
  match fst ev with
  | Flush _ => true
  | _ => false
  end.

(** Calls of the profile step: the output directory, the fetch, the file. *)
Definition is_snapshot_call (ev : event) : bool :=
  match fst ev with
  | Makedirs _ => true
  | GetProfile _ => true
  | WriteJson _ _ => true
  | _ => false
  end.

(** [ceil(a / b)] for a positive [b]. *)
Definition ceil_div (a b : Z) : Z := (a + b - 1) / b.

(** [l[k*B : (k+1)*B]], the [k]-th contiguous slice of width [B]. *)
Definition nth_slice {A : Type} (l : list A) (B : Z) (k : nat) : list A :=
  slice l (Some (Z.of_nat k * B)) (Some ((Z.of_nat k + 1) * B)).

(** The message built from a turn of a segment stamped [timestamp]: the
    turn's text, its own speaker label, the segment's timestamp. *)
Definition message_of (timestamp : jvalue) (chat : Chat) : Message :=
  mkMessage "user" (chat_text chat) (chat_speaker chat) timestamp.

(** The label of a turn is one of the two declared speakers. *)
Definition known_speaker (sa sb : string) (chat : Chat) : bool :=
  String.eqb (chat_speaker chat) sa || String.eqb (chat_speaker chat) sb.

(** A turn goes to the first sequence when its label is that of the first
    speaker, to the second when it is only that of the second. *)
Definition to_first (sa : string) (chat : Chat) : bool :=
  String.eqb (chat_speaker chat) sa.

Definition to_second (sa sb : string) (chat : Chat) : bool :=
  negb (String.eqb (chat_speaker chat) sa) && String.eqb (chat_speaker chat) sb.

Definition unknown_speaker (sa sb : string) (chat : Chat) : bool :=
  negb (known_speaker sa sb chat).

(** [m] is an order-preserving interleaving of [l] and [r]: every element of
    [m] comes from exactly one of the two, and each keeps its order. *)
Inductive interleaving {A : Type} : list A -> list A -> list A -> Prop :=
| interleaving_nil : interleaving [] [] []
| interleaving_left x l r m :
    interleaving l r m -> interleaving (x :: l) r (x :: m)
| interleaving_right x l r m :
    interleaving l r m -> interleaving l (x :: r) (x :: m).

(** The loop-skipping test of [process_conversation] on a key. *)
Definition skipped (key : string) : bool :=
  mem key ["speaker_a"; "speaker_b"]
  || contains "date" key || contains "timestamp" key.

(** The calls of [es] failed attempts to insert [m] in the session [u], each
    followed by the one-second sleep. *)
Definition failed_attempts (u : User) (m : list Message) (es : list exn)
  : history :=
  flat_map (fun e => [(Insert u m, Failed e); (Sleep 1, Done)]) es.

(** An event of the retrying send in the session [u]: an insert into [u] or
    a sleep of one second. *)
Definition on_session (u : User) (ev : event) : Prop :=
  match ev with
  | (Insert u' _, _) => u' = u
  | (Sleep seconds, Done) => seconds = 1
  | _ => False
  end.


(** An exception raised by the shape of the data of a conversation: a turn
    of an unknown speaker, a missing key, a segment that is a string. *)
Definition data_error (e : exn) : Prop :=
  match e with
  | ValueError msg =>
      exists label, msg = ("Unknown speaker: " ++ label)%string
  | KeyError _ => True
  | TypeError _ => True
  | OtherError _ _ => False
  end.

(** A key of a conversation the loop of [process_conversation] gets through
    without raising: it is skipped, or it has its timestamp and its turns,
    every turn labelled with a declared speaker. *)
Definition key_ok (conv : Conversation) (key : string) : Prop :=
  skipped key = true \/
  exists ts v turns,
    getitem conv (key ++ "_date_time")%string = Returns ts /\
    getitem conv key = Returns v /\
    turns_of v = Returns turns /\
    Forall (fun chat => chat_speaker chat = speaker_a conv
                        \/ chat_speaker chat = speaker_b conv) turns.

(** How many records of a dataset of [len] records a cap leaves: no cap and
    a cap of zero leave all, a positive cap at most that many, a negative
    cap drops that many from the end. *)
Definition kept_count (len : Z) (max_samples : option Z) : Z :=
  match max_samples with
  | None => len
  | Some n =>
      if n =? 0 then len
      else if n <? 0 then Z.max 0 (len + n)
      else Z.min n len
  end.




(* ================================================================== *)
(** ** Basic facts *)
(* ================================================================== *)

(** Split a goal into its conjuncts, without introducing anything. *)
Ltac conjuncts :=
  repeat match goal with |- _ /\ _ => split end.

Lemma new_events_app (h t : history) : new_events h (h ++ t) = t.
Proof.
  unfold new_events. rewrite skipn_app, skipn_all, Nat.sub_diag. reflexivity.
Qed.

Lemma new_events_self (h : history) : new_events h h = [].
Proof. unfold new_events. apply skipn_all. Qed.

Lemma inserts_app (s t : history) : inserts (s ++ t) = inserts s ++ inserts t.
Proof. unfold inserts. apply flat_map_app. Qed.

Lemma sent_app (s t : history) : sent (s ++ t) = sent s ++ sent t.
Proof. unfold sent. apply flat_map_app. Qed.

Lemma for_each_app {A : Type} (xs ys : list A) (body : A -> M unit)
    (h : history) :
  for_each (xs ++ ys) body h =
  match for_each xs body h with
  | (Returns _, h') => for_each ys body h'
  | (Raises e, h') => (Raises e, h')
  end.
Proof.
  revert h. induction xs as [|x xs IH]; intros h; simpl.
  - reflexivity.
  - unfold bind. destruct (body x h) as [[[]|e] h']; [apply IH | reflexivity].
Qed.

(* ================================================================== *)
(** ** The retrying send *)
(* ================================================================== *)

Section Retry.

Variable world : World.
Variables (user : User) (message : list Message).

(** What the three attempts of the default budget do, by the world's
    answers. *)
Lemma add_memory_default (h : history) :
  let ins := Insert user message in
  add_memory world user message default_retries h =
  match fault world h ins with
  | None => (Returns tt, h ++ [(ins, Done)])
  | Some e1 =>
      let h1 := h ++ [(ins, Failed e1); (Sleep 1, Done)] in
      match fault world h1 ins with
      | None => (Returns tt, h1 ++ [(ins, Done)])
      | Some e2 =>
          let h2 := h1 ++ [(ins, Failed e2); (Sleep 1, Done)] in
          match fault world h2 ins with
          | None => (Returns tt, h2 ++ [(ins, Done)])
          | Some e3 => (Raises e3, h2 ++ [(ins, Failed e3)])
          end
      end
  end.
Proof.
  unfold add_memory, default_retries.
  change (range 3) with [0; 1; 2].
  cbn -[fault app].
  unfold bind, try, perform, emit, ret, raise.
  destruct (fault world h _) as [e1|]; cbn -[fault app]; [|reflexivity].
  rewrite <- !app_assoc. cbn [app].
  destruct (fault world _ _) as [e2|]; cbn -[fault app]; [|reflexivity].
  rewrite <- !app_assoc. cbn [app].
  destruct (fault world _ _) as [e3|]; cbn -[fault app];
    rewrite <- ?app_assoc; reflexivity.
Qed.

(** C2. With the default budget of three attempts, the retrying send calls
    the remote insert at most three times, always with the same batch, and
    stops at the first attempt that succeeds: a normal return ends with the
    one successful insert, every attempt before it having failed.  When the
    three attempts fail, the exception of the third is raised.  An insert
    that fails twice and then succeeds gives three insert calls, one of
    them successful, separated by the one-second sleeps. *)
Theorem add_memory_retry_budget (h : history) :
  let ins := Insert user message in
  let run := add_memory world user message default_retries h in
  let t := new_events h (snd run) in
  snd run = h ++ t /\
  (List.length (inserts t) <= 3)%nat /\
  Forall (fun blob => blob = message) (inserts t) /\
  (fst run = Returns tt ->
     exists failed, t = failed ++ [(ins, Done)] /\
                    sent failed = [] /\ sent t = [message]) /\
  (forall e, fst run = Raises e ->
     exists failed, t = failed ++ [(ins, Failed e)] /\
                    List.length (inserts t) = 3%nat /\ sent t = []) /\
  (forall e1 e2,
     let h1 := h ++ [(ins, Failed e1); (Sleep 1, Done)] in
     let h2 := h1 ++ [(ins, Failed e2); (Sleep 1, Done)] in
     fault world h ins = Some e1 ->
     fault world h1 ins = Some e2 ->
     fault world h2 ins = None ->
     run = (Returns tt, h2 ++ [(ins, Done)]) /\
     inserts t = [message; message; message] /\
     sent t = [message]).
Proof.
  intros ins run t. subst run t.
  rewrite add_memory_default. fold ins.
  destruct (fault world h ins) as [e1|] eqn:F1; cbn zeta.
  2:{ cbn [fst snd]. rewrite new_events_app.
      conjuncts; cbn; auto.
      - intros _. exists []. auto.
      - intros e H. discriminate H.
      - intros e1 e2 H. discriminate H. }
  destruct (fault world (h ++ _) ins) as [e2|] eqn:F2.
  2:{ cbn [fst snd]. rewrite <- app_assoc, new_events_app.
      conjuncts; cbn; auto.
      - intros _. eexists [_; _]. cbn. auto.
      - intros e H. discriminate H.
      - intros e1' e2' H1 H2. inversion H1; subst e1'.
        rewrite F2 in H2. discriminate H2. }
  destruct (fault world ((h ++ _) ++ _) ins) as [e3|] eqn:F3.
  2:{ cbn [fst snd]. rewrite <- !app_assoc, new_events_app.
      conjuncts; cbn; auto.
      - intros _. eexists [_; _; _; _]. cbn. auto.
      - intros e H. discriminate H.
      - intros e1' e2' H1 H2 H3. inversion H1; subst e1'.
        rewrite F2 in H2. inversion H2; subst e2'.
        rewrite <- !app_assoc. auto. }
  cbn [fst snd]. rewrite <- !app_assoc, new_events_app.
  conjuncts; cbn; auto.
  - intros H. discriminate H.
  - intros e H. inversion H; subst e. eexists [_; _; _; _]. cbn. auto.
  - intros e1' e2' H1 H2 H3. inversion H1; subst e1'.
    rewrite F2 in H2. inversion H2; subst e2'.
    rewrite F3 in H3. discriminate H3.
Qed.

End Retry.

(** The theorem at an insert that fails twice and then succeeds. *)
Lemma add_memory_retry_budget_witness :
  let m := [Sample.msg "hi" "A"] in
  let ins := Insert Sample.alice m in
  add_memory (Sample.flaky 2) Sample.alice m default_retries [] =
    (Returns tt,
     [ (ins, Failed (OtherError "ServerError" "insert 1")); (Sleep 1, Done);
       (ins, Failed (OtherError "ServerError" "insert 2")); (Sleep 1, Done);
       (ins, Done) ]) /\
  sent (new_events []
          (snd (add_memory (Sample.flaky 2) Sample.alice m default_retries [])))
    = [m].
Proof.
  intros m ins.
  destruct (add_memory_retry_budget (Sample.flaky 2) Sample.alice m [])
    as (_ & _ & _ & _ & _ & H).
  destruct (H (OtherError "ServerError" "insert 1")
              (OtherError "ServerError" "insert 2")
              eq_refl eq_refl eq_refl) as (R & _ & S).
  split; [exact R | exact S].
Defined.

(* ================================================================== *)
(** ** Ranges and slices *)
(* ================================================================== *)

Section Batching.

Variable B : Z.
Hypothesis B_pos : 1 <= B.

Lemma ceil_div_step (d : Z) :
  0 < d -> ceil_div d B = ceil_div (d - B) B + 1 /\ 0 <= ceil_div (d - B) B.
Proof.
  intros Hd. unfold ceil_div.
  replace (d + B - 1) with ((d - 1) + 1 * B) by lia.
  rewrite Z.div_add by lia.
  replace (d - B + B - 1) with (d - 1) by lia.
  split; [reflexivity | apply Z.div_pos; lia].
Qed.

Lemma ceil_div_nonpos (d : Z) : d <= 0 -> ceil_div d B <= 0.
Proof.
  intros Hd. unfold ceil_div.
  assert ((d + B - 1) / B < 1); [|lia].
  apply Z.div_lt_upper_bound; lia.
Qed.

Lemma ceil_div_covers (d : Z) : d <= ceil_div d B * B.
Proof.
  unfold ceil_div.
  pose proof (Z_div_mod_eq_full (d + B - 1) B).
  pose proof (Z.mod_pos_bound (d + B - 1) B). lia.
Qed.

Lemma ceil_div_tight (d : Z) : (ceil_div d B - 1) * B < d.
Proof.
  unfold ceil_div.
  pose proof (Z_div_mod_eq_full (d + B - 1) B).
  pose proof (Z.mod_pos_bound (d + B - 1) B). lia.
Qed.

(** The starts a positive-step range yields: [i], [i + B], [i + 2B], ...,
    [ceil((stop - i) / B)] of them. *)
Lemma range_from_starts (stop : Z) (fuel : nat) :
  forall i, (Z.to_nat (stop - i) <= fuel)%nat ->
  range_from fuel i stop B =
  map (fun k => i + Z.of_nat k * B)
      (seq 0 (Z.to_nat (ceil_div (stop - i) B))).
Proof.
  induction fuel as [|fuel IH]; intros i Hfuel.
  - assert (ceil_div (stop - i) B <= 0) by (apply ceil_div_nonpos; lia).
    replace (Z.to_nat (ceil_div (stop - i) B)) with 0%nat by lia.
    reflexivity.
  - cbn [range_from]. destruct (i <? stop) eqn:Hlt.
    + apply Z.ltb_lt in Hlt.
      destruct (@ceil_div_step (stop - i)) as [Hq Hq0]; [lia|].
      replace (stop - i - B) with (stop - (i + B)) in * by lia.
      rewrite Hq, Z2Nat.inj_add by lia.
      change (Z.to_nat 1) with 1%nat. rewrite Nat.add_1_r.
      cbn [seq map]. rewrite <- seq_shift, map_map.
      rewrite IH by lia. f_equal; [lia|].
      apply map_ext. intros k. lia.
    + apply Z.ltb_ge in Hlt.
      assert (ceil_div (stop - i) B <= 0) by (apply ceil_div_nonpos; lia).
      replace (Z.to_nat (ceil_div (stop - i) B)) with 0%nat by lia.
      reflexivity.
Qed.

(** [range(0, L, B)] for a length [L]. *)
Lemma range3_starts (L : nat) :
  range3 0 (Z.of_nat L) B =
  Returns (map (fun k => Z.of_nat k * B)
               (seq 0 (Z.to_nat (ceil_div (Z.of_nat L) B)))).
Proof.
  unfold range3.
  replace (B =? 0) with false by (symmetry; apply Z.eqb_neq; lia).
  replace (0 <? B) with true by (symmetry; apply Z.ltb_lt; lia).
  rewrite range_from_starts by lia.
  rewrite Z.sub_0_r. reflexivity.
Qed.

Lemma firstn_add {A : Type} (a b : nat) :
  forall l : list A, firstn (a + b) l = firstn a l ++ firstn b (skipn a l).
Proof.
  induction a as [|a IH]; intros [|x l]; cbn; try reflexivity.
  - now rewrite firstn_nil.
  - now rewrite IH.
Qed.

(** A slice between non-negative multiples of [B] without the clamping. *)
Lemma nth_slice_firstn_skipn {A : Type} (l : list A) (k : nat) :
  nth_slice l B k = firstn (Z.to_nat B) (skipn (k * Z.to_nat B) l).
Proof.
  unfold nth_slice, slice, adjust_index.
  set (len := Z.of_nat (List.length l)).
  replace (Z.of_nat k * B <? 0) with false
    by (symmetry; apply Z.ltb_ge; nia).
  replace ((Z.of_nat k + 1) * B <? 0) with false
    by (symmetry; apply Z.ltb_ge; nia).
  assert (Hk : (k * Z.to_nat B)%nat = Z.to_nat (Z.of_nat k * B)) by nia.
  rewrite Hk.
  destruct (Z_le_gt_dec len (Z.of_nat k * B)) as [Hout|Hin].
  - rewrite Z.min_r by lia.
    rewrite !skipn_all2 by (subst len; lia).
    now rewrite !firstn_nil.
  - rewrite (Z.min_l (Z.of_nat k * B)) by lia.
    destruct (Z_le_gt_dec ((Z.of_nat k + 1) * B) len) as [Hfull|Hshort].
    + rewrite Z.min_l by lia. f_equal. lia.
    + rewrite Z.min_r by lia.
      rewrite !firstn_all2; [reflexivity | |];
        rewrite length_skipn; subst len; lia.
Qed.

Lemma concat_slices {A : Type} (l : list A) (n : nat) :
  List.concat (map (nth_slice l B) (seq 0 n)) = firstn (n * Z.to_nat B) l.
Proof.
  induction n as [|n IH].
  - reflexivity.
  - rewrite seq_S, map_app, concat_app, IH. cbn [map List.concat Nat.add].
    rewrite app_nil_r, nth_slice_firstn_skipn.
    rewrite <- firstn_add. f_equal. lia.
Qed.

(** The batches of a sequence are its [ceil(L/B)] consecutive slices of
    width [B]: each at most [B] long, all but the last exactly [B], and
    together the sequence itself. *)
Lemma slices_partition {A : Type} (l : list A) :
  let n := Z.to_nat (ceil_div (Z.of_nat (List.length l)) B) in
  let batches := map (nth_slice l B) (seq 0 n) in
  List.length batches = n /\
  (forall k, (k < n)%nat -> nth k batches [] = nth_slice l B k) /\
  Forall (fun b => Z.of_nat (List.length b) <= B) batches /\
  (forall k, (S k < n)%nat -> Z.of_nat (List.length (nth_slice l B k)) = B) /\
  Forall (fun b => b <> []) batches /\
  List.concat batches = l.
Proof.
  intros n batches. subst batches.
  pose proof (ceil_div_covers (Z.of_nat (List.length l))) as Hcov.
  pose proof (ceil_div_tight (Z.of_nat (List.length l))) as Htight.
  conjuncts.
  - now rewrite length_map, length_seq.
  - intros k Hk.
    rewrite (nth_indep _ [] (nth_slice l B 0))
      by (now rewrite length_map, length_seq).
    rewrite map_nth, seq_nth by assumption. reflexivity.
  - apply Forall_map, Forall_forall. intros k _.
    rewrite nth_slice_firstn_skipn, length_firstn. lia.
  - intros k Hk.
    rewrite nth_slice_firstn_skipn, length_firstn, length_skipn. nia.
  - apply Forall_map, Forall_forall. intros k Hk.
    apply in_seq in Hk.
    rewrite nth_slice_firstn_skipn. intros Hnil.
    apply (f_equal (@List.length A)) in Hnil.
    rewrite length_firstn, length_skipn in Hnil. cbn in Hnil. nia.
  - rewrite concat_slices. apply firstn_all2. subst n. nia.
Qed.

End Batching.

(* ================================================================== *)
(** ** The batch uploader *)
(* ================================================================== *)

(** Decide membership of an event in an explicit history. *)
Ltac case_in H :=
  repeat match type of H with
         | In _ (_ ++ _) => apply in_app_or in H; destruct H as [H|H]
         | In _ (_ :: _) => destruct H as [H|H]
         | In _ [] => destruct H
         end.

Section Uploader.

Variable uuid5 : string -> string.
Variable world : World.
Variable batch_size : Z.

(** One send: its calls are inserts and sleeps; a normal return has sent
    the batch once; a raise, and only a raise or a retry, leaves a failed
    attempt behind. *)
Lemma add_memory_summary (u : User) (m : list Message) (h : history) :
  let run := add_memory world u m default_retries h in
  exists t,
    snd run = h ++ t /\
    forallb is_send_call t = true /\
    (fst run = Returns tt -> sent t = [m]) /\
    (forall e, fst run = Raises e -> existsb is_failed_insert t = true) /\
    (existsb is_failed_insert t = false -> inserts t = [m]).
Proof.
  cbn zeta. rewrite add_memory_default. cbn zeta.
  destruct (fault world h _) as [e1|].
  2:{ eexists [_]. cbn. conjuncts; auto. discriminate. }
  destruct (fault world (h ++ _) _) as [e2|].
  2:{ eexists [_; _; _]. cbn [fst snd]. rewrite <- app_assoc.
      cbn. conjuncts; auto; discriminate. }
  destruct (fault world ((h ++ _) ++ _) _) as [e3|].
  2:{ eexists [_; _; _; _; _]. cbn [fst snd]. rewrite <- !app_assoc.
      cbn. conjuncts; auto; discriminate. }
  eexists [_; _; _; _; _]. cbn [fst snd]. rewrite <- !app_assoc.
  cbn. conjuncts; auto; discriminate.
Qed.

(** The loop over the batches. *)
Lemma send_all_summary (u : User) (f : Z -> list Message) (starts : list Z) :
  forall h,
  let run :=
    for_each starts (fun i => add_memory world u (f i) default_retries) h in
  exists t,
    snd run = h ++ t /\
    forallb is_send_call t = true /\
    (fst run = Returns tt -> sent t = map f starts) /\
    (forall e, fst run = Raises e -> existsb is_failed_insert t = true) /\
    (existsb is_failed_insert t = false -> inserts t = map f starts).
Proof.
  induction starts as [|i starts IH]; intros h; cbn zeta.
  - exists []. cbn. rewrite app_nil_r. conjuncts; auto. discriminate.
  - cbn [for_each]. unfold bind.
    destruct (add_memory_summary u (f i) h) as (t1 & E1 & S1 & R1 & X1 & I1).
    destruct (add_memory world u (f i) default_retries h) as [[[]|e] h1];
      cbn [fst snd] in *; subst h1.
    + destruct (IH (h ++ t1)) as (t2 & E2 & S2 & R2 & X2 & I2).
      exists (t1 ++ t2). rewrite E2, app_assoc.
      rewrite forallb_app, S1, S2, sent_app, inserts_app, existsb_app.
      conjuncts; auto.
      * intros H. rewrite R1, R2 by auto. reflexivity.
      * intros e H. rewrite (X2 e H). apply orb_true_r.
      * intros H. apply orb_false_elim in H. destruct H as [H1 H2].
        rewrite I1, I2 by assumption. reflexivity.
    + exists t1. pose proof (X1 e eq_refl) as X.
      conjuncts; auto; try discriminate.
      intros H. rewrite X in H. discriminate H.
Qed.

(** The uploader, call by call. *)
Lemma add_memories_for_speaker_steps
    (speaker : string) (messages : list Message) (desc : string)
    (h : history) :
  let uid := string_to_uuid uuid5 speaker default_salt in
  add_memories_for_speaker uuid5 world batch_size speaker messages desc h =
  match user_reply world h uid with
  | Raises e => (Raises e, h ++ [(GetOrCreateUser uid, Failed e)])
  | Returns u =>
  match range3 0 (Z.of_nat (List.length messages)) batch_size with
  | Raises e => (Raises e, h ++ [(GetOrCreateUser uid, Done)])
  | Returns starts =>
  match for_each starts (fun i =>
          add_memory world u
            (slice messages (Some i) (Some (i + batch_size)))
            default_retries) (h ++ [(GetOrCreateUser uid, Done)]) with
  | (Raises e, h1) => (Raises e, h1)
  | (Returns _, h1) =>
  match fault world h1 (Flush u) with
  | Some e => (Raises e, h1 ++ [(Flush u, Failed e)])
  | None =>
  let dir := Makedirs "memobase_memories" in
  match fault world (h1 ++ [(Flush u, Done)]) dir with
  | Some e => (Raises e, h1 ++ [(Flush u, Done); (dir, Failed e)])
  | None =>
  let h3 := h1 ++ [(Flush u, Done); (dir, Done)] in
  let failure e :=
    Print ("Failed to save profile for user " ++ user_id u
             ++ ": " ++ str_exn e)%string in
  match profile_reply world h3 u with
  | Raises e =>
      (Returns tt, h3 ++ [(GetProfile u, Failed e); (failure e, Done)])
  | Returns profile_data =>
  let file :=
    WriteJson ("memobase_memories/" ++ user_id u ++ ".json")%string
              profile_data in
  match fault world (h3 ++ [(GetProfile u, Done)]) file with
  | Some e =>
      (Returns tt,
       h3 ++ [(GetProfile u, Done); (file, Failed e); (failure e, Done)])
  | None =>
      (Returns tt,
       h3 ++ [(GetProfile u, Done); (file, Done);
              (Print ("Profile saved for user " ++ user_id u)%string, Done)])
  end end end end end end end.
Proof.
  cbn zeta. unfold add_memories_for_speaker.
  unfold bind at 1. unfold get_or_create_user at 1.
  destruct (user_reply world h _) as [u|e]; [|reflexivity].
  unfold bind at 1. unfold lift at 1.
  destruct (range3 _ _ _) as [starts|e]; [|reflexivity].
  unfold bind at 1.
  destruct (for_each starts _ _) as [[[]|e] h1]; [|reflexivity].
  unfold bind at 1. unfold perform at 1.
  destruct (fault world h1 _) as [e|]; [reflexivity|].
  unfold bind at 1. unfold perform at 1.
  destruct (fault world (h1 ++ _) _) as [e|];
    [rewrite <- app_assoc; reflexivity|].
  rewrite <- (app_assoc h1). cbn [app].
  unfold bind, try, profile, perform, emit, ret.
  destruct (profile_reply world _ u) as [p|e];
    [|rewrite <- app_assoc; reflexivity].
  destruct (fault world _ _) as [e|];
    rewrite <- !app_assoc; reflexivity.
Qed.

Lemma send_calls_only (t : history) (ev : event) :
  forallb is_send_call t = true -> In ev t -> is_send_call ev = true.
Proof. intros H. now apply forallb_forall. Qed.

Lemma send_calls_no_flush (t : history) :
  forallb is_send_call t = true -> existsb is_flush_call t = false.
Proof.
  induction t as [|[[] o] t IH]; cbn; intros H;
    try discriminate H; auto.
Qed.

Lemma send_calls_no_snapshot (t : history) :
  forallb is_send_call t = true -> existsb is_snapshot_call t = false.
Proof.
  induction t as [|[[] o] t IH]; cbn; intros H;
    try discriminate H; auto.
Qed.

(** Run the uploader from [h], one goal per way it can end. *)
Ltac uploader_cases h messages :=
  rewrite add_memories_for_speaker_steps; cbn zeta;
  destruct (user_reply world h _) as [u0|e0];
  [ destruct (range3 _ _ _) as [starts|e0] eqn:Hstarts;
    [ let t1 := fresh "t1" in
      let E1 := fresh "E1" in
      let h1 := fresh "h1" in
      match goal with
      | |- context [for_each starts _ ?h0] =>
          destruct (send_all_summary u0
                      (fun i => slice messages (Some i)
                                  (Some (i + batch_size))) starts h0)
            as (t1 & E1 & Hsend & Hsent & Hraise & Hclean);
          cbn zeta in E1, Hsent, Hraise;
          destruct (for_each starts _ h0) as [[[]|e0] h1];
          cbn [fst snd] in E1, Hsent, Hraise; subst h1;
          [ destruct (fault world _ (Flush u0)) as [e0|];
            [ | destruct (fault world _ (Makedirs _)) as [e0|];
                [ | destruct (profile_reply world _ u0) as [p0|e0];
                    [ destruct (fault world _ (WriteJson _ _)) as [e0|] | ] ] ]
          | ]
      end
    | ]
  | ];
  cbn [fst snd]; rewrite <- ?app_assoc, new_events_app; cbn [app].

(** C10. A failed flush ends the uploader at once: the exception of that
    flush is what [add_memories_for_speaker] raises, the failed flush is
    its last call and its only flush (no retry), every batch had been
    inserted, and no call of the profile step (directory, fetch, file) is
    made. *)
Theorem flush_failure_propagates
    (speaker : string) (messages : list Message) (desc : string)
    (h : history) (u : User) (e : exn) :
  let run :=
    add_memories_for_speaker uuid5 world batch_size speaker messages desc h in
  let t := new_events h (snd run) in
  In (Flush u, Failed e) t ->
  fst run = Raises e /\
  (exists before,
     t = before ++ [(Flush u, Failed e)] /\
     existsb is_flush_call before = false) /\
  (exists starts,
     range3 0 (Z.of_nat (List.length messages)) batch_size = Returns starts /\
     sent t =
     map (fun i => slice messages (Some i) (Some (i + batch_size))) starts) /\
  existsb is_snapshot_call t = false.
Proof.
  cbn zeta. uploader_cases h messages; intros H; case_in H;
    try discriminate H;
    try (apply (@send_calls_only _ _ Hsend) in H; discriminate H).
  inversion H; subst u0 e0; clear H.
  conjuncts.
  - reflexivity.
  - eexists (_ :: t1). split; [reflexivity|].
    cbn. now apply send_calls_no_flush.
  - exists starts. split; [reflexivity|].
    cbn. rewrite sent_app, Hsent by reflexivity. cbn. apply app_nil_r.
  - cbn. rewrite existsb_app, send_calls_no_snapshot by assumption.
    reflexivity.
Qed.

(** C7. Once the profile step is reached, a failure of the fetch or of the
    write does not escape: [add_memories_for_speaker] returns normally, its
    last call being the log line that reports the failure, and the flush
    before it had succeeded. *)
Theorem snapshot_failure_is_logged
    (speaker : string) (messages : list Message) (desc : string)
    (h : history) (e : exn) :
  let run :=
    add_memories_for_speaker uuid5 world batch_size speaker messages desc h in
  let t := new_events h (snd run) in
  (exists u, In (GetProfile u, Failed e) t) \/
  (exists path data, In (WriteJson path data, Failed e) t) ->
  fst run = Returns tt /\
  exists u before,
    t = before
        ++ [(Print ("Failed to save profile for user " ++ user_id u
                      ++ ": " ++ str_exn e)%string, Done)] /\
    In (Flush u, Done) before.
Proof.
  cbn zeta. uploader_cases h messages;
    intros [(u & H)|(path & data & H)]; case_in H;
    try discriminate H;
    try (apply (@send_calls_only _ _ Hsend) in H; discriminate H);
    inversion H; subst; clear H;
    (split; [reflexivity|]);
    first [ eexists _, (_ :: t1 ++ [_; _; _]);
            cbn -[append]; rewrite <- app_assoc; split; [reflexivity|]
          | eexists _, (_ :: t1 ++ [_; _; _; _]);
            cbn -[append]; rewrite <- app_assoc; split; [reflexivity|] ];
    right; apply in_or_app; right; now left.
Qed.

(** The slices the loop takes at the starts of its range are the
    consecutive slices of width [batch_size]. *)
Lemma loop_slices (messages : list Message) (starts : list Z) :
  1 <= batch_size ->
  range3 0 (Z.of_nat (List.length messages)) batch_size = Returns starts ->
  map (fun i => slice messages (Some i) (Some (i + batch_size))) starts =
  map (nth_slice messages batch_size)
      (seq 0 (Z.to_nat (ceil_div (Z.of_nat (List.length messages))
                                 batch_size))).
Proof.
  intros HB Hstarts. rewrite range3_starts in Hstarts by assumption.
  inversion Hstarts; subst starts; clear Hstarts.
  rewrite map_map. apply map_ext. intros k.
  unfold nth_slice. do 2 f_equal. lia.
Qed.

(** C1, as amended.  For a batch size of at least one, the batches of a
    message sequence of length [L] are its [ceil(L/B)] consecutive slices
    [messages[k*B : (k+1)*B]]: each of size at most [B], all but the last
    of size [B], together the sequence itself.  In every run that reaches
    the flush, the inserts that succeeded are exactly these batches, in
    order, each once; and in every run that obtains the session and in
    which no insert attempt fails, the insert calls are exactly these. *)
Theorem batches_are_consecutive_slices
    (speaker : string) (messages : list Message) (desc : string)
    (h : history) :
  1 <= batch_size ->
  let L := Z.of_nat (List.length messages) in
  let n := Z.to_nat (ceil_div L batch_size) in
  let batches := map (nth_slice messages batch_size) (seq 0 n) in
  let run :=
    add_memories_for_speaker uuid5 world batch_size speaker messages desc h in
  let t := new_events h (snd run) in
  (List.length batches = n /\
   (forall k, (k < n)%nat ->
      nth k batches [] = nth_slice messages batch_size k) /\
   Forall (fun b => Z.of_nat (List.length b) <= batch_size) batches /\
   (forall k, (S k < n)%nat ->
      Z.of_nat (List.length (nth_slice messages batch_size k)) = batch_size) /\
   Forall (fun b => b <> []) batches /\
   List.concat batches = messages) /\
  ((exists u o, In (Flush u, o) t) -> sent t = batches) /\
  (In (GetOrCreateUser (string_to_uuid uuid5 speaker default_salt), Done) t ->
   existsb is_failed_insert t = false ->
   inserts t = batches).
Proof.
  intros HB L n batches run t. subst run t batches n L.
  split; [exact (slices_partition HB messages)|].
  uploader_cases h messages;
    try (rewrite range3_starts in Hstarts by assumption; discriminate Hstarts);
    try (apply (loop_slices _ HB) in Hstarts; rewrite <- Hstarts);
    (split;
     [ intros (u & o & H); case_in H; try discriminate H;
       try (apply (@send_calls_only _ _ Hsend) in H; discriminate H);
       cbn; rewrite sent_app, Hsent by reflexivity; cbn; apply app_nil_r
     | intros H1 H2; case_in H1; try discriminate H1;
       cbn in H2; rewrite ?existsb_app in H2;
       try (apply orb_false_elim in H2; destruct H2 as [H2 _]);
       try (rewrite (Hraise e0 eq_refl) in H2; discriminate H2);
       cbn; rewrite ?inserts_app, Hclean by assumption; cbn;
       rewrite ?app_nil_r; reflexivity ]).
Qed.

End Uploader.

(** Find an event in an explicit history. *)
Ltac find_event :=
  vm_compute; repeat (first [left; reflexivity | right]).

(** The amended C1 at three messages in batches of two, nothing failing. *)
Lemma batches_are_consecutive_slices_witness :
  let m1 := Sample.msg "one" "A" in
  let m2 := Sample.msg "two" "A" in
  let m3 := Sample.msg "three" "A" in
  let run :=
    add_memories_for_speaker Sample.uuid_of Sample.calm 2 "A_0"
      [m1; m2; m3] "Adding Memories for Speaker A" [] in
  1 <= 2 /\
  sent (new_events [] (snd run)) = [[m1; m2]; [m3]] /\
  inserts (new_events [] (snd run)) = [[m1; m2]; [m3]].
Proof.
  intros m1 m2 m3 run.
  assert (HB : 1 <= 2) by lia.
  pose proof (@batches_are_consecutive_slices Sample.uuid_of Sample.calm 2
                "A_0" [m1; m2; m3] "Adding Memories for Speaker A" [] HB) as H.
  cbv zeta in H. destruct H as (_ & Hsent & Hins).
  split; [exact HB|]. split.
  - etransitivity.
    + apply Hsent. exists (mkUser "uuid5:A_0memobase_client"), Done. find_event.
    + reflexivity.
  - etransitivity.
    + apply Hins; [find_event | reflexivity].
    + reflexivity.
Defined.

(** C1 as stated fails as soon as one attempt fails: a single message in
    batches of one is one batch, [ceil(1/1) = 1], yet with a first attempt
    that fails the uploader makes two insert calls, the retry repeating the
    batch. *)
Lemma retried_batch_is_inserted_twice :
  let m := Sample.msg "hi" "A" in
  let run :=
    add_memories_for_speaker Sample.uuid_of (Sample.flaky 1) 1 "A_0"
      [m] "Adding Memories for Speaker A" [] in
  fst run = Returns tt /\
  inserts (new_events [] (snd run)) = [[m]; [m]] /\
  List.length (inserts (new_events [] (snd run)))
    <> Z.to_nat (ceil_div (Z.of_nat (List.length [m])) 1).
Proof.
  cbv zeta. split; [reflexivity|]. split; [reflexivity|].
  vm_compute. discriminate.
Qed.

(** C7 at a service whose profile fetch fails. *)
Lemma snapshot_failure_is_logged_witness :
  let w := Sample.failing Sample.is_get_profile in
  let u := mkUser "uuid5:A_0memobase_client" in
  let run :=
    add_memories_for_speaker Sample.uuid_of w 2 "A_0"
      [Sample.msg "hi" "A"] "Adding Memories for Speaker A" [] in
  In (GetProfile u, Failed Sample.unavailable) (new_events [] (snd run)) /\
  fst run = Returns tt /\
  In (Print "Failed to save profile for user uuid5:A_0memobase_client: 503",
      Done) (new_events [] (snd run)).
Proof.
  intros w u run.
  assert (H : In (GetProfile u, Failed Sample.unavailable)
                 (new_events [] (snd run))) by find_event.
  split; [exact H|].
  destruct (@snapshot_failure_is_logged Sample.uuid_of w 2 "A_0"
              [Sample.msg "hi" "A"] "Adding Memories for Speaker A" []
              Sample.unavailable
              (or_introl (ex_intro _ u H))) as (R & _).
  split; [exact R | find_event].
Defined.

(** C10 at a service whose flush fails. *)
Lemma flush_failure_propagates_witness :
  let w := Sample.failing Sample.is_flush in
  let u := mkUser "uuid5:A_0memobase_client" in
  let run :=
    add_memories_for_speaker Sample.uuid_of w 2 "A_0"
      [Sample.msg "one" "A"; Sample.msg "two" "A"; Sample.msg "three" "A"]
      "Adding Memories for Speaker A" [] in
  In (Flush u, Failed Sample.unavailable) (new_events [] (snd run)) /\
  fst run = Raises Sample.unavailable /\
  existsb is_snapshot_call (new_events [] (snd run)) = false.
Proof.
  intros w u run.
  assert (H : In (Flush u, Failed Sample.unavailable)
                 (new_events [] (snd run))) by find_event.
  split; [exact H|].
  destruct (@flush_failure_propagates Sample.uuid_of w 2 "A_0"
              [Sample.msg "one" "A"; Sample.msg "two" "A";
               Sample.msg "three" "A"]
              "Adding Memories for Speaker A" [] u Sample.unavailable H)
    as (R & _ & _ & S).
  split; [exact R | exact S].
Defined.

(* ================================================================== *)
(** ** The conversation splitter *)
(* ================================================================== *)

Section Splitter.

Variables speaker_a speaker_b : string.
Variable timestamp : jvalue.

(** The loop over the turns: it raises at the first turn of an unknown
    speaker, and otherwise appends to each accumulator the messages of the
    turns that go to it, in order. *)
Lemma split_chats_spec (chats : list Chat) :
  forall messages messages_reverse,
  split_chats speaker_a speaker_b timestamp chats messages messages_reverse =
  match find (unknown_speaker speaker_a speaker_b) chats with
  | Some chat =>
      Raises (ValueError ("Unknown speaker: " ++ chat_speaker chat)%string)
  | None =>
      Returns
        (messages
           ++ map (message_of timestamp) (filter (to_first speaker_a) chats),
         messages_reverse
           ++ map (message_of timestamp)
                  (filter (to_second speaker_a speaker_b) chats))
  end.
Proof.
  induction chats as [|chat chats IH]; intros ma mb; cbn [split_chats find].
  - cbn. now rewrite !app_nil_r.
  - unfold unknown_speaker at 1, known_speaker.
    cbn [filter]. unfold to_first at 1, to_second at 1.
    destruct (String.eqb (chat_speaker chat) speaker_a) eqn:Ha.
    + cbn [negb orb andb]. rewrite IH. apply String.eqb_eq in Ha.
      destruct (find _ chats); [reflexivity|].
      cbn [map]. rewrite <- app_assoc. unfold message_of.
      rewrite Ha. reflexivity.
    + destruct (String.eqb (chat_speaker chat) speaker_b) eqn:Hb.
      * cbn [negb orb andb]. rewrite IH. apply String.eqb_eq in Hb.
        destruct (find _ chats); [reflexivity|].
        cbn [map]. rewrite <- app_assoc. unfold message_of.
        rewrite Hb. reflexivity.
      * reflexivity.
Qed.

Lemma unknown_speaker_iff (chat : Chat) :
  unknown_speaker speaker_a speaker_b chat = true <->
  chat_speaker chat <> speaker_a /\ chat_speaker chat <> speaker_b.
Proof.
  unfold unknown_speaker, known_speaker.
  rewrite negb_true_iff, orb_false_iff, !String.eqb_neq. reflexivity.
Qed.

Lemma find_unknown_none (chats : list Chat) :
  Forall (fun chat => chat_speaker chat = speaker_a
                      \/ chat_speaker chat = speaker_b) chats ->
  find (unknown_speaker speaker_a speaker_b) chats = None.
Proof.
  induction 1 as [|chat chats Hc _ IH]; cbn; [reflexivity|].
  destruct (unknown_speaker speaker_a speaker_b chat) eqn:U; [|exact IH].
  apply unknown_speaker_iff in U. tauto.
Qed.

Lemma find_unknown_some (chats : list Chat) :
  Exists (fun chat => chat_speaker chat <> speaker_a
                      /\ chat_speaker chat <> speaker_b) chats ->
  exists chat, find (unknown_speaker speaker_a speaker_b) chats = Some chat.
Proof.
  induction 1 as [chat chats Hc|chat chats _ IH]; cbn.
  - apply unknown_speaker_iff in Hc. rewrite Hc. eauto.
  - destruct (unknown_speaker speaker_a speaker_b chat); eauto.
Qed.

(** The two sequences interleave to the segment. *)
Lemma split_interleaves (chats : list Chat) :
  find (unknown_speaker speaker_a speaker_b) chats = None ->
  interleaving (map (message_of timestamp) (filter (to_first speaker_a) chats))
               (map (message_of timestamp)
                  (filter (to_second speaker_a speaker_b) chats))
               (map (message_of timestamp) chats).
Proof.
  induction chats as [|chat chats IH]; cbn [find filter map]; intros H.
  - constructor.
  - destruct (unknown_speaker _ _ chat) eqn:U; [discriminate H|].
    unfold unknown_speaker, known_speaker in U.
    unfold to_first, to_second.
    destruct (String.eqb (chat_speaker chat) speaker_a); cbn [negb andb].
    + cbn [map]. constructor. now apply IH.
    + cbn in U. apply negb_false_iff in U. rewrite U.
      cbn [map]. constructor. now apply IH.
Qed.

End Splitter.

(* ================================================================== *)
(** ** The conversation processor *)
(* ================================================================== *)

Lemma try_returns {A : Type} (m : M A) (h : history) :
  try m h = (Returns (fst (m h)), snd (m h)).
Proof. unfold try. destruct (m h); reflexivity. Qed.

Lemma for_each_raises {A : Type} (body : A -> M unit) (x : A) (xs : list A) :
  In x xs ->
  (forall h, exists e, fst (body x h) = Raises e) ->
  forall h, exists e, fst (for_each xs body h) = Raises e.
Proof.
  intros Hin Hx. induction xs as [|y xs IH]; [destruct Hin|].
  intros h. cbn [for_each]. unfold bind.
  destruct Hin as [->|Hin].
  - destruct (Hx h) as [e He]. destruct (body x h) as [[[]|e'] h'];
      cbn in *; [discriminate He | eauto].
  - destruct (body y h) as [[[]|e'] h']; cbn; [now apply IH | eauto].
Qed.

Section Processor.

Variable uuid5 : string -> string.
Variable world : World.
Variable batch_size : Z.
Variable run_threads :
  (string -> list Message -> string -> M unit) ->
  thread_args -> thread_args -> M unit.

(** The loop body on a key that is a segment with its timestamp. *)
Lemma process_key_segment (conv : Conversation) (ida idb key : string)
    (ts : jvalue) (chats : list Chat) (h : history) :
  skipped key = false ->
  getitem conv (key ++ "_date_time")%string = Returns ts ->
  getitem conv key = Returns (JTurns chats) ->
  process_key uuid5 world batch_size run_threads conv ida idb key h =
  match split_chats (speaker_a conv) (speaker_b conv) ts chats [] [] with
  | Returns split =>
      run_threads (add_memories_for_speaker uuid5 world batch_size)
        (ida, fst split, "Adding Memories for Speaker A")
        (idb, snd split, "Adding Memories for Speaker B") h
  | Raises e => (Raises e, h)
  end.
Proof.
  intros Hskip Hts Hchats. unfold process_key.
  unfold skipped in Hskip. rewrite Hskip.
  unfold bind, lift. rewrite Hts, Hchats. cbn [turns_of].
  destruct (split_chats _ _ _ _ _ _); reflexivity.
Qed.

(** The two deletes that open [process_conversation], by the world's
    answers: whatever they do, the loop over the keys runs next; when the
    first delete raises, the second is not called. *)
Lemma process_conversation_deletes (item : Item) (idx : Z) (h : history) :
  let conv := conversation item in
  let ida := (speaker_a conv ++ "_" ++ str_int idx)%string in
  let idb := (speaker_b conv ++ "_" ++ str_int idx)%string in
  let delete_a := DeleteUser (string_to_uuid uuid5 ida default_salt) in
  let delete_b := DeleteUser (string_to_uuid uuid5 idb default_salt) in
  let segments :=
    (for_each (keys conv)
       (process_key uuid5 world batch_size run_threads conv ida idb) ;;
     emit (Print "Messages added successfully"))%prog in
  process_conversation uuid5 world batch_size run_threads item idx h =
  match fault world h delete_a with
  | Some e => segments (h ++ [(delete_a, Failed e)])
  | None =>
      match fault world (h ++ [(delete_a, Done)]) delete_b with
      | Some e => segments (h ++ [(delete_a, Done); (delete_b, Failed e)])
      | None => segments (h ++ [(delete_a, Done); (delete_b, Done)])
      end
  end.
Proof.
  cbn zeta. unfold process_conversation.
  unfold bind at 1. unfold try, bind at 1. unfold perform at 1.
  destruct (fault world h _) as [e|]; [reflexivity|].
  unfold perform at 1.
  destruct (fault world (h ++ _) _) as [e|];
    rewrite <- app_assoc; reflexivity.
Qed.

Lemma message_of_turn (ts : jvalue) (turns : list Chat) :
  Forall2 (fun chat m => content m = chat_text chat
                         /\ alias m = chat_speaker chat
                         /\ created_at m = ts)
          turns (map (message_of ts) turns).
Proof.
  induction turns as [|chat turns IH]; cbn [map]; constructor.
  - cbn. auto.
  - exact IH.
Qed.

(** C3. On a segment all of whose turns carry the label of one of the two
    declared speakers, the splitter succeeds and hands the two uploads the
    two sequences: the turns labelled with the first speaker, and the
    others, each in the order of the segment.  Every turn is in exactly one
    of them, the two interleave to the whole segment, and each message
    carries the text of its turn, the label of its turn and the timestamp
    stored under the segment's [_date_time] key. *)
Theorem split_assigns_each_turn (conv : Conversation)
    (ida idb key : string) (ts : jvalue) (chats : list Chat) :
  skipped key = false ->
  getitem conv (key ++ "_date_time")%string = Returns ts ->
  getitem conv key = Returns (JTurns chats) ->
  Forall (fun chat => chat_speaker chat = speaker_a conv
                      \/ chat_speaker chat = speaker_b conv) chats ->
  let first := filter (to_first (speaker_a conv)) chats in
  let second := filter (to_second (speaker_a conv) (speaker_b conv)) chats in
  let messages := map (message_of ts) first in
  let messages_reverse := map (message_of ts) second in
  let same_turn chat m :=
    content m = chat_text chat /\ alias m = chat_speaker chat
    /\ created_at m = ts in
  split_chats (speaker_a conv) (speaker_b conv) ts chats [] []
    = Returns (messages, messages_reverse) /\
  (forall h,
     process_key uuid5 world batch_size run_threads conv ida idb key h =
     run_threads (add_memories_for_speaker uuid5 world batch_size)
       (ida, messages, "Adding Memories for Speaker A")
       (idb, messages_reverse, "Adding Memories for Speaker B") h) /\
  Forall (fun chat => to_first (speaker_a conv) chat
                      = negb (to_second (speaker_a conv) (speaker_b conv) chat))
         chats /\
  Forall (fun chat => chat_speaker chat = speaker_a conv) first /\
  Forall (fun chat => chat_speaker chat = speaker_b conv) second /\
  interleaving messages messages_reverse (map (message_of ts) chats) /\
  Forall2 same_turn first messages /\
  Forall2 same_turn second messages_reverse.
Proof.
  intros Hskip Hts Hchats Hknown. cbn zeta.
  pose proof (find_unknown_none Hknown) as Hnone.
  assert (Hsplit :
    split_chats (speaker_a conv) (speaker_b conv) ts chats [] [] =
    Returns (map (message_of ts) (filter (to_first (speaker_a conv)) chats),
             map (message_of ts)
                 (filter (to_second (speaker_a conv) (speaker_b conv)) chats))).
  { rewrite split_chats_spec, Hnone. reflexivity. }
  conjuncts.
  - exact Hsplit.
  - intros h.
    rewrite (@process_key_segment conv ida idb key ts chats h Hskip Hts Hchats).
    rewrite Hsplit. reflexivity.
  - apply Forall_forall. intros chat Hin.
    rewrite Forall_forall in Hknown. specialize (Hknown chat Hin).
    unfold to_first, to_second.
    destruct (String.eqb (chat_speaker chat) (speaker_a conv)) eqn:Ha;
      [reflexivity|].
    apply String.eqb_neq in Ha. destruct Hknown as [Hk|Hk]; [tauto|].
    apply String.eqb_eq in Hk. rewrite Hk. reflexivity.
  - apply Forall_forall. intros chat Hin. apply filter_In in Hin.
    destruct Hin as [_ Hin]. apply String.eqb_eq. exact Hin.
  - apply Forall_forall. intros chat Hin. apply filter_In in Hin.
    destruct Hin as [_ Hin]. apply andb_prop in Hin.
    destruct Hin as [_ Hin]. apply String.eqb_eq. exact Hin.
  - now apply split_interleaves.
  - apply message_of_turn.
  - apply message_of_turn.
Qed.

(** C5, as amended.  Whatever the splitter returns, every message of both
    sequences carries the same role, and that role is the string "user". *)
Theorem split_tags_every_message_user (sa sb : string) (ts : jvalue)
    (chats : list Chat) (messages messages_reverse : list Message) :
  split_chats sa sb ts chats [] [] = Returns (messages, messages_reverse) ->
  Forall (fun m => role m = "user") messages /\
  Forall (fun m => role m = "user") messages_reverse.
Proof.
  rewrite split_chats_spec.
  destruct (find _ chats); [discriminate|].
  intros H. inversion H; subst; clear H. cbn [app].
  split; apply Forall_map, Forall_forall; reflexivity.
Qed.

(** C4. Splitting a segment raises exactly when one of its turns carries a
    label that is neither declared speaker.  The exception then names the
    first such turn; the loop body raises it without a single call having
    been made for that segment, whatever the thread primitive is; the loop
    over the keys stops there, with the history the keys before it left;
    and [process_conversation] ends by raising. *)
Theorem unknown_speaker_aborts (item : Item) (idx : Z) (key : string)
    (ts : jvalue) (chats : list Chat) :
  let conv := conversation item in
  let sa := speaker_a conv in
  let sb := speaker_b conv in
  let unknown chat := chat_speaker chat <> sa /\ chat_speaker chat <> sb in
  let body := process_key uuid5 world batch_size run_threads conv in
  ((exists e, split_chats sa sb ts chats [] [] = Raises e)
   <-> Exists unknown chats) /\
  (In key (keys conv) ->
   skipped key = false ->
   getitem conv (key ++ "_date_time")%string = Returns ts ->
   getitem conv key = Returns (JTurns chats) ->
   Exists unknown chats ->
   exists chat,
     In chat chats /\ unknown chat /\
     let failure : except unit :=
       Raises (ValueError ("Unknown speaker: " ++ chat_speaker chat)%string) in
     (forall ida idb h, body ida idb key h = (failure, h)) /\
     (forall ida idb keys1 keys2 h h1,
        keys conv = keys1 ++ key :: keys2 ->
        for_each keys1 (body ida idb) h = (Returns tt, h1) ->
        for_each (keys conv) (body ida idb) h = (failure, h1)) /\
     (forall h, exists e,
        fst (process_conversation uuid5 world batch_size run_threads
               item idx h) = Raises e)).
Proof.
  cbn zeta. split.
  - rewrite split_chats_spec. split.
    + intros [e He].
      destruct (find _ chats) as [chat|] eqn:F; [|discriminate He].
      apply find_some in F. destruct F as [Hin U].
      apply Exists_exists. exists chat. split; [exact Hin|].
      now apply unknown_speaker_iff.
    + intros Hex. destruct (find_unknown_some Hex) as [chat F].
      rewrite F. eauto.
  - intros Hkey Hskip Hts Hchats Hex.
    destruct (find_unknown_some Hex) as [chat F].
    pose proof (find_some _ _ F) as [Hin U].
    exists chat. split; [exact Hin|].
    split; [now apply unknown_speaker_iff|]. cbn zeta.
    assert (Hbody : forall ida idb h,
      process_key uuid5 world batch_size run_threads (conversation item)
        ida idb key h =
      (Raises (ValueError ("Unknown speaker: " ++ chat_speaker chat)%string),
       h)).
    { intros ida idb h.
      rewrite (@process_key_segment _ ida idb key ts chats h Hskip Hts Hchats).
      rewrite split_chats_spec, F. reflexivity. }
    conjuncts.
    + exact Hbody.
    + intros ida idb keys1 keys2 h h1 Hkeys Hpre.
      rewrite Hkeys, for_each_app, Hpre. cbn [for_each]. unfold bind.
      rewrite Hbody. reflexivity.
    + intros h. unfold process_conversation. unfold bind at 1.
      rewrite try_returns. set (h' := snd _).
      unfold bind at 1.
      destruct (@for_each_raises _
                  (process_key uuid5 world batch_size run_threads
                     (conversation item)
                     (speaker_a (conversation item) ++ "_" ++ str_int idx)
                     (speaker_b (conversation item) ++ "_" ++ str_int idx))
                  key (keys (conversation item)) Hkey
                  (fun h0 => ex_intro _ _ (f_equal fst (Hbody _ _ h0))) h')
        as [e He].
      destruct (for_each _ _ h') as [[[]|e'] h'']; cbn in He |- *;
        [discriminate He | eauto].
Qed.

End Processor.

(** C3 at the segment of the end-to-end example. *)
Lemma split_assigns_each_turn_witness :
  let conv := conversation Sample.hi_yo in
  let chats := [mkChat "A" "hi"; mkChat "B" "yo"] in
  getitem conv "seg1" = Returns (JTurns chats) /\
  split_chats "A" "B" (JString "t1") chats [] [] =
    Returns ([mkMessage "user" "hi" "A" (JString "t1")],
             [mkMessage "user" "yo" "B" (JString "t1")]).
Proof.
  intros conv chats.
  assert (Hchats : getitem conv "seg1" = Returns (JTurns chats))
    by reflexivity.
  assert (Hknown : Forall (fun chat => chat_speaker chat = speaker_a conv
                                       \/ chat_speaker chat = speaker_b conv)
                          chats).
  { constructor; [left; reflexivity|].
    constructor; [right; reflexivity|]. constructor. }
  split; [exact Hchats|].
  exact (proj1 (@split_assigns_each_turn Sample.uuid_of Sample.calm 2
                  one_after_the_other conv "A_0" "B_0" "seg1" (JString "t1")
                  chats eq_refl eq_refl Hchats Hknown)).
Defined.

(** C5, amended, at the segment of the end-to-end example. *)
Lemma split_tags_every_message_user_witness :
  let ma := [mkMessage "user" "hi" "A" (JString "t1")] in
  let mb := [mkMessage "user" "yo" "B" (JString "t1")] in
  split_chats "A" "B" (JString "t1") [mkChat "A" "hi"; mkChat "B" "yo"] [] []
    = Returns (ma, mb) /\
  Forall (fun m => role m = "user") ma /\
  Forall (fun m => role m = "user") mb.
Proof.
  intros ma mb.
  assert (H : split_chats "A" "B" (JString "t1")
                [mkChat "A" "hi"; mkChat "B" "yo"] [] [] = Returns (ma, mb))
    by reflexivity.
  split; [exact H|].
  exact (split_tags_every_message_user _ _ _ _ H).
Defined.

(** C5 as stated fails on the end-to-end example: each speaker's session
    receives its one batch, and the role in it is "user", not "self". *)
Lemma end_to_end_role_is_not_self :
  let run :=
    process_conversation Sample.uuid_of Sample.calm default_batch_size
      one_after_the_other Sample.hi_yo 0 [] in
  sent (snd run) =
    [ [mkMessage "user" "hi" "A" (JString "t1")];
      [mkMessage "user" "yo" "B" (JString "t1")] ] /\
  ~ Forall (fun m => role m = "self") (List.concat (sent (snd run))).
Proof.
  cbv zeta. split; [reflexivity|].
  intros H. vm_compute in H. inversion H as [|m l Hrole _]. discriminate Hrole.
Qed.

(** C4 at a conversation whose second segment has a turn of a speaker "C". *)
Lemma unknown_speaker_aborts_witness :
  let conv := conversation Sample.with_stranger in
  let chats := [mkChat "A" "again"; mkChat "C" "hello"] in
  getitem conv "seg2" = Returns (JTurns chats) /\
  (forall h,
     process_key Sample.uuid_of Sample.calm 2 one_after_the_other conv
       "A_7" "B_7" "seg2" h = (Raises (ValueError "Unknown speaker: C"), h)) /\
  exists e,
    fst (process_conversation Sample.uuid_of Sample.calm 2 one_after_the_other
           Sample.with_stranger 7 []) = Raises e.
Proof.
  intros conv chats.
  assert (Hchats : getitem conv "seg2" = Returns (JTurns chats))
    by reflexivity.
  assert (Hkey : In "seg2" (keys conv)) by (cbn; auto 10).
  assert (Hex : Exists (fun chat => chat_speaker chat <> speaker_a conv
                                    /\ chat_speaker chat <> speaker_b conv)
                       chats).
  { apply Exists_cons_tl, Exists_cons_hd. split; discriminate. }
  split; [exact Hchats|].
  destruct (proj2 (@unknown_speaker_aborts Sample.uuid_of Sample.calm 2
                     one_after_the_other Sample.with_stranger 7 "seg2"
                     (JString "t2") chats)
              Hkey eq_refl eq_refl Hchats Hex)
    as (chat & Hin & _ & Hbody & _ & Habort).
  destruct Hin as [<-|[<-|[]]].
  - exfalso. specialize (Hbody "A_7" "B_7" []).
    vm_compute in Hbody. discriminate Hbody.
  - split; [intros h; apply Hbody | apply Habort].
Defined.

(** C6 at a service whose first [delete_user] fails: the failure is
    swallowed and the segment is uploaded, but the second identity's delete
    is never attempted. *)
Theorem failed_first_delete_skips_second :
  let run :=
    process_conversation Sample.uuid_of Sample.first_delete_fails
      default_batch_size one_after_the_other Sample.hi_yo 0 [] in
  fst run = Returns tt /\
  hd_error (snd run) =
    Some (DeleteUser "uuid5:A_0memobase_client", Failed Sample.unavailable) /\
  deletions (snd run) = ["uuid5:A_0memobase_client"] /\
  ~ In "uuid5:B_0memobase_client" (deletions (snd run)) /\
  sent (snd run) =
    [ [mkMessage "user" "hi" "A" (JString "t1")];
      [mkMessage "user" "yo" "B" (JString "t1")] ].
Proof.
  cbv zeta. conjuncts; try reflexivity.
  vm_compute. intros [H|[]]. discriminate H.
Qed.

(* ================================================================== *)
(** ** The dataset driver *)
(* ================================================================== *)

Lemma slice_prefix {A : Type} (l : list A) (N : Z) :
  0 <= N <= Z.of_nat (List.length l) ->
  slice l None (Some N) = firstn (Z.to_nat N) l.
Proof.
  intros HN. unfold slice, adjust_index.
  replace (N <? 0) with false by (symmetry; apply Z.ltb_ge; lia).
  rewrite Z.min_l, Z.sub_0_r by lia. reflexivity.
Qed.

Lemma length_enumerate_from {A : Type} (l : list A) :
  forall start, List.length (enumerate_from start l) = List.length l.
Proof.
  induction l as [|x l IH]; intros start; cbn; [|rewrite IH]; reflexivity.
Qed.

Lemma nth_enumerate_from {A : Type} (l : list A) (d : A) (i : Z) :
  forall start k, (k < List.length l)%nat ->
  nth k (enumerate_from start l) (i, d) = (start + Z.of_nat k, nth k l d).
Proof.
  induction l as [|x l IH]; intros start k Hk; cbn in Hk; [lia|].
  destruct k as [|k]; cbn [enumerate_from nth].
  - f_equal. lia.
  - rewrite IH by lia. f_equal. lia.
Qed.

Section Driver.

Variable uuid5 : string -> string.
Variable world : World.
Variable batch_size : Z.
Variable run_threads :
  (string -> list Message -> string -> M unit) ->
  thread_args -> thread_args -> M unit.
Variable executor :
  Z -> (Item -> Z -> M unit) -> list (Item * Z) -> M unit.

(** C8, as amended.  For a cap [N] with [1 <= N <= len(data)], the driver
    hands the pool exactly the first [N] records, each with its index, in
    the order of the dataset: the task list has [N] entries and its [k]-th
    entry is the [k]-th record paired with [k]. *)
Theorem first_samples_are_submitted (data : list Item) (N max_workers : Z)
    (h : history) :
  1 <= N <= Z.of_nat (List.length data) ->
  let kept := firstn (Z.to_nat N) data in
  let tasks := map (fun p => (snd p, fst p)) (enumerate kept) in
  process_all_conversations uuid5 world batch_size run_threads executor
    (Some data) max_workers (Some N) h =
  executor max_workers
    (process_conversation uuid5 world batch_size run_threads) tasks h /\
  List.length tasks = Z.to_nat N /\
  (forall k item0, (k < Z.to_nat N)%nat ->
     nth k tasks (item0, -1) = (nth k data item0, Z.of_nat k)).
Proof.
  intros HN kept tasks. subst tasks kept. conjuncts.
  - unfold process_all_conversations.
    destruct data as [|item data']; [cbn in HN; lia|].
    cbn [data_truthy negb samples_truthy].
    replace (N =? 0) with false by (symmetry; apply Z.eqb_neq; lia).
    cbn [negb]. rewrite slice_prefix by lia. reflexivity.
  - unfold enumerate. rewrite length_map, length_enumerate_from, length_firstn.
    lia.
  - intros k item0 Hk.
    change (item0, -1) with ((fun p : Z * Item => (snd p, fst p)) (-1, item0)).
    rewrite map_nth. unfold enumerate.
    rewrite nth_enumerate_from by (rewrite length_firstn; lia).
    cbn [fst snd]. rewrite nth_firstn.
    replace (k <? Z.to_nat N)%nat with true
      by (symmetry; apply Nat.ltb_lt; lia).
    reflexivity.
Qed.

(** C9. When no data was loaded, or the loaded array is empty, the driver
    raises [ValueError] at once: nothing is called, nothing is handed to
    the pool, whatever the other arguments are. *)
Theorem no_data_raises (data : option (list Item)) (max_workers : Z)
    (max_samples : option Z) (h : history) :
  data = None \/ data = Some [] ->
  process_all_conversations uuid5 world batch_size run_threads executor
    data max_workers max_samples h =
  (Raises (ValueError
     "No data loaded. Please set data_path and call load_data() first."),
   h).
Proof. intros [->| ->]; reflexivity. Qed.

End Driver.

(** The amended C8 at a cap of one on two records. *)
Lemma first_samples_are_submitted_witness :
  let data := [Sample.with_stranger; Sample.hi_yo] in
  let run :=
    process_all_conversations Sample.uuid_of Sample.calm 2
      one_after_the_other one_worker (Some data) default_max_workers
      (Some 1) [] in
  1 <= 1 <= Z.of_nat (List.length data) /\
  run = one_worker default_max_workers
          (process_conversation Sample.uuid_of Sample.calm 2
             one_after_the_other)
          [(Sample.with_stranger, 0)] [] /\
  submissions (snd run) = [(Sample.with_stranger, 0)].
Proof.
  intros data run.
  assert (HN : 1 <= 1 <= Z.of_nat (List.length data)) by (cbn; lia).
  split; [exact HN|]. split; [|reflexivity].
  exact (proj1 (@first_samples_are_submitted Sample.uuid_of Sample.calm 2
                  one_after_the_other one_worker data 1 default_max_workers
                  [] HN)).
Defined.

(** C8 as stated fails at a cap of zero, which is at most every length: the
    test [if max_samples] is false for [0], nothing is cut, and the one
    record of the dataset is submitted although the first zero records are
    none. *)
Lemma zero_cap_submits_every_record :
  let data := [Sample.hi_yo] in
  let run :=
    process_all_conversations Sample.uuid_of Sample.calm 2
      one_after_the_other one_worker (Some data) default_max_workers
      (Some 0) [] in
  0 <= Z.of_nat (List.length data) /\
  fst run = Returns tt /\
  submissions (snd run) = [(Sample.hi_yo, 0)] /\
  submissions (snd run)
    <> map (fun p => (snd p, fst p)) (enumerate (firstn (Z.to_nat 0) data)).
Proof.
  cbv zeta. conjuncts; try reflexivity.
  - cbn. lia.
  - vm_compute. discriminate.
Qed.

(** C9 at the empty array. *)
Lemma no_data_raises_witness :
  process_all_conversations Sample.uuid_of Sample.calm 2
    one_after_the_other one_worker (Some []) default_max_workers None [] =
  (Raises (ValueError
     "No data loaded. Please set data_path and call load_data() first."),
   []).
Proof.
  exact (@no_data_raises Sample.uuid_of Sample.calm 2 one_after_the_other
           one_worker (Some []) default_max_workers None []
           (or_intror eq_refl)).
Defined.

(* ================================================================== *)
(** ** The retrying send with any budget *)
(* ================================================================== *)

Lemma range_seq (n : Z) : range n = map Z.of_nat (seq 0 (Z.to_nat n)).
Proof.
  unfold range.
  rewrite (@range_from_starts 1) by lia.
  replace (ceil_div (n - 0) 1) with n
    by (unfold ceil_div; rewrite Z.div_1_r; lia).
  apply map_ext. intros k. lia.
Qed.

Section RetryBudget.

Variable world : World.
Variables (user : User) (message : list Message).

(** One turn of the loop over the attempts. *)
Lemma add_memory_attempts_cons (retries attempt : Z) (attempts : list Z)
    (h : history) :
  let ins := Insert user message in
  add_memory_attempts world user message retries (attempt :: attempts) h =
  match fault world h ins with
  | None => (Returns tt, h ++ [(ins, Done)])
  | Some e =>
      if attempt <? retries - 1
      then add_memory_attempts world user message retries attempts
             (h ++ [(ins, Failed e); (Sleep 1, Done)])
      else (Raises e, h ++ [(ins, Failed e)])
  end.
Proof.
  cbn [add_memory_attempts]. unfold bind at 1. unfold try, perform at 1.
  destruct (fault world h _) as [e|]; [|reflexivity].
  destruct (attempt <? retries - 1); [|reflexivity].
  unfold bind, emit. rewrite <- app_assoc. reflexivity.
Qed.

(** The attempts [a], [a+1], ..., [a+k-1] of a budget of [a+k]. *)
Lemma add_memory_attempts_shape (k : nat) :
  forall (a : nat) (h : history),
  let ins := Insert user message in
  let run :=
    add_memory_attempts world user message (Z.of_nat (a + S k))
      (map Z.of_nat (seq a (S k))) h in
  exists es,
    (List.length es <= k)%nat /\
    (run = (Returns tt, h ++ failed_attempts user message es ++ [(ins, Done)])
     \/ exists e,
          List.length es = k /\
          run = (Raises e,
                 h ++ failed_attempts user message es ++ [(ins, Failed e)])).
Proof.
  induction k as [|k IH]; intros a h; cbn zeta.
  - cbn [seq map]. rewrite add_memory_attempts_cons. cbn zeta.
    destruct (fault world h _) as [e|].
    + replace (Z.of_nat a <? Z.of_nat (a + 1) - 1) with false
        by (symmetry; apply Z.ltb_ge; lia).
      exists []. split; [cbn; lia|]. right. exists e. split; reflexivity.
    + exists []. split; [cbn; lia|]. left. reflexivity.
  - change (seq a (S (S k))) with (a :: seq (S a) (S k)). cbn [map].
    rewrite add_memory_attempts_cons. cbn zeta.
    destruct (fault world h _) as [e|].
    + replace (Z.of_nat a <? Z.of_nat (a + S (S k)) - 1) with true
        by (symmetry; apply Z.ltb_lt; lia).
      replace (a + S (S k))%nat with (S a + S k)%nat by lia.
      destruct (IH (S a) (h ++ [(Insert user message, Failed e);
                                (Sleep 1, Done)]))
        as (es & Hlen & [Hrun|(e' & Hk & Hrun)]);
        exists (e :: es); (split; [cbn; lia|]).
      * left. rewrite Hrun. cbn [failed_attempts flat_map].
        rewrite <- !app_assoc. reflexivity.
      * right. exists e'. split; [cbn; lia|].
        rewrite Hrun. cbn [failed_attempts flat_map].
        rewrite <- !app_assoc. reflexivity.
    + exists []. split; [cbn; lia|]. left. reflexivity.
Qed.

(** X1. With any budget of at least one attempt, the retrying send ends in
    one of two ways.  Either fewer than [retries] attempts failed, each
    followed by a sleep of one second, and the next one succeeded: it
    returns.  Or [retries - 1] attempts failed with their sleeps and the last
    one failed too: it raises the exception of that last attempt, without a
    sleep after it.  Every insert carries the same batch. *)
Theorem add_memory_any_budget (retries : Z) (h : history) :
  1 <= retries ->
  let ins := Insert user message in
  let run := add_memory world user message retries h in
  exists es,
    Z.of_nat (List.length es) < retries /\
    (run = (Returns tt, h ++ failed_attempts user message es ++ [(ins, Done)])
     \/ exists e,
          Z.of_nat (List.length es) = retries - 1 /\
          run = (Raises e,
                 h ++ failed_attempts user message es ++ [(ins, Failed e)])).
Proof.
  intros Hretries. cbn zeta. unfold add_memory. rewrite range_seq.
  destruct (Z.to_nat retries) as [|k] eqn:Hk; [lia|].
  assert (Hr : retries = Z.of_nat (0 + S k)) by lia.
  destruct (add_memory_attempts_shape k 0 h)
    as (es & Hlen & [Hrun|(e & Hes & Hrun)]);
    rewrite <- Hr in Hrun; exists es; (split; [lia|]).
  - left. exact Hrun.
  - right. exists e. split; [lia | exact Hrun].
Qed.

(** X2. With a budget of zero or less the loop over the attempts is empty:
    the send returns normally without having called the service at all. *)
Theorem add_memory_without_budget (retries : Z) (h : history) :
  retries <= 0 ->
  add_memory world user message retries h = (Returns tt, h).
Proof.
  intros Hretries. unfold add_memory. rewrite range_seq.
  replace (Z.to_nat retries) with 0%nat by lia. reflexivity.
Qed.

End RetryBudget.

(** X1 at a budget of five and a service whose first four inserts fail. *)
Lemma add_memory_any_budget_witness :
  let m := [Sample.msg "hi" "A"] in
  1 <= 5 /\
  exists es,
    add_memory (Sample.flaky 4) Sample.alice m 5 [] =
    (Returns tt,
     failed_attempts Sample.alice m es ++ [(Insert Sample.alice m, Done)]).
Proof.
  intros m.
  assert (H5 : 1 <= 5) by lia.
  split; [exact H5|].
  destruct (@add_memory_any_budget (Sample.flaky 4) Sample.alice m 5 [] H5)
    as (es & Hlen & [Hrun|(e & _ & Hrun)]).
  - exists es. exact Hrun.
  - exfalso. apply (f_equal fst) in Hrun. vm_compute in Hrun.
    discriminate Hrun.
Defined.

(** X2 at a budget of zero. *)
Lemma add_memory_without_budget_witness :
  0 <= 0 /\
  add_memory (Sample.flaky 1) Sample.alice [Sample.msg "hi" "A"] 0 [] =
  (Returns tt, []).
Proof.
  assert (H0 : 0 <= 0) by lia.
  split; [exact H0|].
  exact (@add_memory_without_budget (Sample.flaky 1) Sample.alice
           [Sample.msg "hi" "A"] 0 [] H0).
Defined.

(* ================================================================== *)
(** ** More on the batch uploader *)
(* ================================================================== *)

Section UploaderShape.

Variable uuid5 : string -> string.
Variable world : World.
Variable batch_size : Z.

(** One send, with the session its calls are made in. *)
Lemma add_memory_session (u : User) (m : list Message) (h : history) :
  let run := add_memory world u m default_retries h in
  exists t,
    snd run = h ++ t /\
    Forall (on_session u) t /\
    ((fst run = Returns tt /\ sent t = [m])
     \/ exists e pre,
          fst run = Raises e /\ sent t = []
          /\ t = pre ++ [(Insert u m, Failed e)]).
Proof.
  cbn zeta. rewrite add_memory_default. cbn zeta.
  destruct (fault world h _) as [e1|].
  2:{ eexists [_]. conjuncts; [reflexivity | repeat constructor |].
      left. split; reflexivity. }
  destruct (fault world (h ++ _) _) as [e2|].
  2:{ eexists [_; _; _]. cbn [fst snd]. rewrite <- app_assoc.
      conjuncts; [reflexivity | repeat constructor |].
      left. split; reflexivity. }
  destruct (fault world ((h ++ _) ++ _) _) as [e3|].
  2:{ eexists [_; _; _; _; _]. cbn [fst snd]. rewrite <- !app_assoc.
      conjuncts; [reflexivity | repeat constructor |].
      left. split; reflexivity. }
  eexists [_; _; _; _; _]. cbn [fst snd]. rewrite <- !app_assoc.
  conjuncts; [reflexivity | repeat constructor |].
  right. exists e3. eexists [_; _; _; _]. conjuncts; reflexivity.
Qed.

(** The loop over the batches: the batches sent are those of the first [j]
    starts, and the loop raises only on a failed insert. *)
Lemma send_all_prefix (u : User) (f : Z -> list Message) (starts : list Z) :
  forall h,
  let run :=
    for_each starts (fun i => add_memory world u (f i) default_retries) h in
  exists t j,
    snd run = h ++ t /\
    Forall (on_session u) t /\
    sent t = map f (firstn j starts) /\
    ((fst run = Returns tt /\ j = List.length starts)
     \/ exists e pre b,
          fst run = Raises e /\ (j < List.length starts)%nat
          /\ t = pre ++ [(Insert u b, Failed e)]).
Proof.
  induction starts as [|i starts IH]; intros h; cbn zeta.
  - exists [], 0%nat. cbn. rewrite app_nil_r. conjuncts; auto.
  - cbn [for_each]. unfold bind.
    destruct (add_memory_session u (f i) h) as (t1 & E1 & S1 & R1).
    destruct (add_memory world u (f i) default_retries h) as [[[]|e] h1];
      cbn [fst snd] in *; subst h1.
    + destruct R1 as [[_ R1]|(e & pre & R1 & _)]; [|discriminate R1].
      destruct (IH (h ++ t1)) as (t2 & j & E2 & S2 & P2 & R2).
      exists (t1 ++ t2), (S j). rewrite E2, app_assoc, sent_app, R1, P2.
      conjuncts; [reflexivity | now apply Forall_app | reflexivity |].
      destruct R2 as [[R2 Hj]|(e & pre & b & R2 & Hj & Ht)].
      * left. split; [exact R2 | cbn; lia].
      * right. exists e, (t1 ++ pre), b.
        conjuncts; [exact R2 | cbn; lia | rewrite Ht; apply app_assoc].
    + destruct R1 as [[R1 _]|(e' & pre & R1 & Hs & Ht)]; [discriminate R1|].
      inversion R1; subst e'; clear R1.
      exists t1, 0%nat. conjuncts; auto.
      right. exists e, pre, (f i).
      conjuncts; [reflexivity | cbn; lia | exact Ht].
Qed.

Lemma on_session_only (u : User) (sends : history) (ev : event) :
  Forall (on_session u) sends -> In ev sends -> on_session u ev.
Proof. intros H. now apply Forall_forall. Qed.

Lemma on_session_send_calls (u : User) (sends : history) :
  Forall (on_session u) sends -> forallb is_send_call sends = true.
Proof.
  induction 1 as [|[[] []] sends Hev _ IH]; cbn in *;
    try contradiction; auto.
Qed.

(** Run the uploader from [h], one goal per way it can end. *)
Ltac uploader_runs h messages :=
  rewrite add_memories_for_speaker_steps; cbn zeta;
  destruct (user_reply world h _) as [u0|e0] eqn:Huser;
  [ destruct (range3 _ _ _) as [starts|e0] eqn:Hstarts;
    [ let sends := fresh "sends" in
      let E1 := fresh "E1" in
      let h1 := fresh "h1" in
      match goal with
      | |- context [for_each starts _ ?h0] =>
          destruct (send_all_prefix u0
                      (fun i => slice messages (Some i)
                                  (Some (i + batch_size))) starts h0)
            as (sends & j & E1 & Hsession & Hsent & Hend);
          cbn zeta in E1, Hend;
          destruct (for_each starts _ h0) as [[[]|e0] h1];
          cbn [fst snd] in E1, Hend; subst h1;
          [ destruct (fault world _ (Flush u0)) as [e0|];
            [ | destruct (fault world _ (Makedirs _)) as [e0|];
                [ | destruct (profile_reply world _ u0) as [p0|e0];
                    [ destruct (fault world _ (WriteJson _ _)) as [e0|] | ] ] ]
          | ]
      end
    | ]
  | ];
  cbn [fst snd]; rewrite <- ?app_assoc, ?new_events_app; cbn [app].

(** X3. With a batch size of zero the uploader obtains the session and then
    raises the [ValueError] of the zero-step range: nothing is inserted,
    flushed or fetched.  (When the session cannot be obtained, that failure
    is raised instead.) *)
Theorem zero_batch_size_raises
    (speaker : string) (messages : list Message) (desc : string)
    (h : history) :
  let uid := string_to_uuid uuid5 speaker default_salt in
  add_memories_for_speaker uuid5 world 0 speaker messages desc h =
  match user_reply world h uid with
  | Returns _ =>
      (Raises (ValueError "range() arg 3 must not be zero"),
       h ++ [(GetOrCreateUser uid, Done)])
  | Raises e => (Raises e, h ++ [(GetOrCreateUser uid, Failed e)])
  end.
Proof.
  cbn zeta. rewrite add_memories_for_speaker_steps. cbn zeta.
  destruct (user_reply world h _); reflexivity.
Qed.

(** X4. When there is nothing to batch, because the sequence is empty or
    because the batch size is negative (the range is then empty), the
    uploader makes no insert and no sleep, and still goes on: once the
    session is obtained its next call is the flush.  With a negative batch
    size the messages are therefore dropped without any error. *)
Theorem no_batch_still_flushes
    (speaker : string) (messages : list Message) (desc : string)
    (h : history) :
  batch_size < 0 \/ (messages = [] /\ batch_size <> 0) ->
  let uid := string_to_uuid uuid5 speaker default_salt in
  let run :=
    add_memories_for_speaker uuid5 world batch_size speaker messages desc h in
  let t := new_events h (snd run) in
  existsb is_send_call t = false /\
  forall u, user_reply world h uid = Returns u ->
    exists o rest, t = (GetOrCreateUser uid, Done) :: (Flush u, o) :: rest.
Proof.
  intros Hnone. cbn zeta.
  assert (Hrange :
    range3 0 (Z.of_nat (List.length messages)) batch_size = Returns []).
  { unfold range3. destruct Hnone as [Hneg|[-> Hnz]].
    - replace (batch_size =? 0) with false by (symmetry; apply Z.eqb_neq; lia).
      replace (0 <? batch_size) with false by (symmetry; apply Z.ltb_ge; lia).
      replace (Z.to_nat (0 - Z.of_nat (List.length messages))) with 0%nat
        by lia.
      reflexivity.
    - replace (batch_size =? 0) with false by (symmetry; apply Z.eqb_neq; lia).
      destruct (0 <? batch_size); reflexivity. }
  rewrite add_memories_for_speaker_steps. cbn zeta. rewrite Hrange.
  cbn [for_each]. unfold ret.
  destruct (user_reply world h _) as [u0|e0].
  2:{ cbn [fst snd]. rewrite new_events_app.
      split; [reflexivity | intros u Hu; discriminate Hu]. }
  destruct (fault world _ (Flush u0)) as [e0|];
    [ | destruct (fault world _ (Makedirs _)) as [e0|];
        [ | destruct (profile_reply world _ u0) as [p0|e0];
            [ destruct (fault world _ (WriteJson _ _)) as [e0|] | ] ] ];
    cbn [fst snd]; rewrite <- ?app_assoc, new_events_app; cbn [app];
    (split; [reflexivity|]);
    intros u Hu; inversion Hu; subst u0; eauto.
Qed.

Lemma sent_session (uid : string) (o : outcome) (t : history) :
  sent ((GetOrCreateUser uid, o) :: t) = sent t.
Proof. reflexivity. Qed.

Lemma prefix_of_batches (messages : list Message) (starts : list Z) (j : nat) :
  1 <= batch_size ->
  range3 0 (Z.of_nat (List.length messages)) batch_size = Returns starts ->
  let n :=
    Z.to_nat (ceil_div (Z.of_nat (List.length messages)) batch_size) in
  List.length starts = n /\
  map (fun i => slice messages (Some i) (Some (i + batch_size)))
      (firstn j starts) =
  firstn j (map (nth_slice messages batch_size) (seq 0 n)).
Proof.
  intros HB Hstarts. cbn zeta.
  pose proof (loop_slices _ HB Hstarts) as Hslices.
  split.
  - apply (f_equal (@List.length _)) in Hslices.
    rewrite !length_map, length_seq in Hslices. exact Hslices.
  - rewrite <- Hslices. symmetry. apply firstn_map.
Qed.

(** X5. For a batch size of at least one, the batches inserted successfully
    are always the first [j] batches of the sequence, in order, each once:
    none is skipped, repeated or sent out of order, whatever fails.  When
    they are not all of them, the uploader raised, and neither the flush nor
    any call of the profile step was made. *)
Theorem sent_batches_form_a_prefix
    (speaker : string) (messages : list Message) (desc : string)
    (h : history) :
  1 <= batch_size ->
  let n :=
    Z.to_nat (ceil_div (Z.of_nat (List.length messages)) batch_size) in
  let batches := map (nth_slice messages batch_size) (seq 0 n) in
  let run :=
    add_memories_for_speaker uuid5 world batch_size speaker messages desc h in
  let t := new_events h (snd run) in
  exists j,
    (j <= n)%nat /\
    sent t = firstn j batches /\
    ((j < n)%nat ->
     (exists e, fst run = Raises e) /\
     existsb is_flush_call t = false /\
     existsb is_snapshot_call t = false).
Proof.
  intros HB. cbn zeta.
  uploader_runs h messages;
    try (rewrite range3_starts in Hstarts by assumption; discriminate Hstarts).
  7:{ exists 0%nat. conjuncts; [lia | reflexivity |].
      intros _. conjuncts; eauto. }
  all: destruct (prefix_of_batches messages j HB Hstarts) as [Hlen Hpre];
    rewrite Hpre in Hsent;
    destruct Hend as [[_ Hj]|(e & pre & b & He & Hj & Ht)];
    try discriminate He; exists j;
    (conjuncts;
     [ lia
     | rewrite sent_session, ?sent_app, Hsent; cbn [sent flat_map app];
       rewrite ?app_nil_r; reflexivity
     | intros Hlt; try lia ]).
  conjuncts; [eauto | |]; cbn.
  - apply send_calls_no_flush. now apply on_session_send_calls with u0.
  - apply send_calls_no_snapshot. now apply on_session_send_calls with u0.
Qed.


Lemma range3_raises (start stop step : Z) (e : exn) :
  range3 start stop step = Raises e ->
  step = 0 /\ e = ValueError "range() arg 3 must not be zero".
Proof.
  unfold range3. destruct (step =? 0) eqn:Hz.
  - intros H. inversion H. apply Z.eqb_eq in Hz. auto.
  - destruct (0 <? step); discriminate.
Qed.

(** X7. The uploader returns normally exactly when the run got as far as
    creating the output directory, that is when the session was obtained,
    every batch was sent and the flush succeeded.  When it raises, the
    exception is that of its last call, which failed, or else the
    [ValueError] of a batch size of zero. *)
Theorem uploader_outcome
    (speaker : string) (messages : list Message) (desc : string)
    (h : history) :
  let run :=
    add_memories_for_speaker uuid5 world batch_size speaker messages desc h in
  let t := new_events h (snd run) in
  (fst run = Returns tt <-> In (Makedirs "memobase_memories", Done) t) /\
  (forall e, fst run = Raises e ->
     (exists c before, t = before ++ [(c, Failed e)])
     \/ (batch_size = 0
         /\ e = ValueError "range() arg 3 must not be zero")).
Proof.
  cbn zeta. uploader_runs h messages; split.
  all: try (split;
            [ intros _; right; apply in_or_app; right; cbn; auto
            | reflexivity ]).
  all: try (intros e H; discriminate H).
  all: try (split;
            [ intros H; discriminate H
            | intros H; case_in H; try discriminate H;
              apply (@on_session_only _ _ _ Hsession) in H; destruct H ]).
  - intros e H. inversion H; subst e. left.
    exists (Flush u0), (((GetOrCreateUser
                            (string_to_uuid uuid5 speaker default_salt), Done)
                         :: sends)). reflexivity.
  - intros e H. inversion H; subst e. left.
    exists (Makedirs "memobase_memories"),
           (((GetOrCreateUser
                (string_to_uuid uuid5 speaker default_salt), Done)
             :: sends) ++ [(Flush u0, Done)]).
    cbn. rewrite <- app_assoc. reflexivity.
  - intros e H. inversion H; subst e. left.
    destruct Hend as [[He _]|(e & pre & b & He & _ & Ht)]; [discriminate He|].
    inversion He; subst e. rewrite Ht.
    exists (Insert u0 b),
           ((GetOrCreateUser
               (string_to_uuid uuid5 speaker default_salt), Done) :: pre).
    reflexivity.
  - intros e H. inversion H; subst e. right.
    now apply range3_raises in Hstarts.
  - intros e H. inversion H; subst e. left.
    exists (GetOrCreateUser (string_to_uuid uuid5 speaker default_salt)), [].
    reflexivity.
Qed.



End UploaderShape.

(** X4 at a negative batch size: two messages, none inserted, the flush
    made. *)
Lemma no_batch_still_flushes_witness :
  let run :=
    add_memories_for_speaker Sample.uuid_of Sample.calm (-2) "A_0"
      [Sample.msg "one" "A"; Sample.msg "two" "A"]
      "Adding Memories for Speaker A" [] in
  (-2 < 0 \/ ([Sample.msg "one" "A"; Sample.msg "two" "A"] = [] /\ -2 <> 0)) /\
  fst run = Returns tt /\
  existsb is_send_call (new_events [] (snd run)) = false.
Proof.
  intros run.
  assert (H : -2 < 0 \/ ([Sample.msg "one" "A"; Sample.msg "two" "A"] = []
                         /\ -2 <> 0)) by (left; lia).
  split; [exact H|]. split; [reflexivity|].
  exact (proj1 (@no_batch_still_flushes Sample.uuid_of Sample.calm (-2) "A_0"
                  [Sample.msg "one" "A"; Sample.msg "two" "A"]
                  "Adding Memories for Speaker A" [] H)).
Defined.

(** X5 at three batches of which the second fails for good: only the first
    is sent. *)
Lemma sent_batches_form_a_prefix_witness :
  let m1 := Sample.msg "one" "A" in
  let m2 := Sample.msg "two" "A" in
  let m3 := Sample.msg "three" "A" in
  let w :=
    {| user_reply := fun _ uid => Returns (mkUser uid);
       profile_reply := fun _ _ => Returns "{}";
       fault := fun h c =>
         match c with
         | Insert _ blob =>
             if String.eqb (content (hd m1 blob)) "two"
             then Some Sample.unavailable else None
         | _ => None
         end |} in
  let run :=
    add_memories_for_speaker Sample.uuid_of w 1 "A_0" [m1; m2; m3]
      "Adding Memories for Speaker A" [] in
  1 <= 1 /\
  sent (new_events [] (snd run)) = [[m1]] /\
  exists j, (j <= 3)%nat /\
            sent (new_events [] (snd run)) = firstn j [[m1]; [m2]; [m3]].
Proof.
  intros m1 m2 m3 w run.
  assert (HB : 1 <= 1) by lia.
  split; [exact HB|]. split; [reflexivity|].
  destruct (@sent_batches_form_a_prefix Sample.uuid_of w 1 "A_0" [m1; m2; m3]
              "Adding Memories for Speaker A" [] HB) as (j & Hj & Hsent & _).
  exists j. split; [exact Hj | exact Hsent].
Defined.


(** X7 at a service whose flush fails: the uploader raises the exception of
    its last call. *)
Lemma uploader_outcome_witness :
  let w := Sample.failing Sample.is_flush in
  let run :=
    add_memories_for_speaker Sample.uuid_of w 2 "A_0"
      [Sample.msg "hi" "A"] "Adding Memories for Speaker A" [] in
  fst run = Raises Sample.unavailable /\
  ((exists c before,
      new_events [] (snd run) = before ++ [(c, Failed Sample.unavailable)])
   \/ (2 = 0 /\ Sample.unavailable
                = ValueError "range() arg 3 must not be zero")).
Proof.
  intros w run.
  assert (H : fst run = Raises Sample.unavailable) by reflexivity.
  split; [exact H|].
  exact (proj2 (@uploader_outcome Sample.uuid_of w 2 "A_0"
                  [Sample.msg "hi" "A"] "Adding Memories for Speaker A" [])
           Sample.unavailable H).
Defined.

(* ================================================================== *)
(** ** More on the splitter and the conversation processor *)
(* ================================================================== *)

Lemma append_assoc (a b c : string) :
  ((a ++ b) ++ c = a ++ b ++ c)%string.
Proof. induction a as [|x a IH]; cbn; [|rewrite IH]; reflexivity. Qed.

Lemma length_append (a b : string) :
  String.length (a ++ b) = (String.length a + String.length b)%nat.
Proof. induction a as [|x a IH]; cbn; [|rewrite IH]; reflexivity. Qed.

Lemma prefix_append (needle rest : string) :
  String.prefix needle (needle ++ rest) = true.
Proof.
  induction needle as [|x needle IH]; cbn.
  - now destruct rest.
  - destruct (ascii_dec x x) as [_|Hx]; [exact IH | now destruct Hx].
Qed.

(** A string contains what it was put together from. *)
Lemma contains_append (needle before rest : string) :
  contains needle (before ++ needle ++ rest) = true.
Proof.
  induction before as [|x before IH]; cbn [append].
  - destruct (needle ++ rest)%string eqn:E; cbn [contains];
      rewrite <- E, prefix_append; reflexivity.
  - cbn [contains]. rewrite IH. apply orb_true_r.
Qed.

Lemma skipped_date_time (key : string) :
  skipped (key ++ "_date_time") = true.
Proof.
  unfold skipped.
  replace (key ++ "_date_time")%string
    with ((key ++ "_") ++ "date" ++ "_time")%string
    by (rewrite append_assoc; reflexivity).
  rewrite contains_append, orb_true_r. reflexivity.
Qed.

Lemma date_time_is_no_speaker_key (key : string) :
  String.eqb (key ++ "_date_time") "speaker_a" = false /\
  String.eqb (key ++ "_date_time") "speaker_b" = false.
Proof.
  split; apply String.eqb_neq; intros H;
    apply (f_equal String.length) in H;
    rewrite length_append in H; cbn in H; lia.
Qed.

Lemma filter_none {A : Type} (f : A -> bool) (l : list A) :
  (forall x, f x = false) -> filter f l = [].
Proof.
  intros Hf. induction l as [|x l IH]; cbn; [|rewrite Hf]; auto.
Qed.

Lemma find_unknown_known (sa sb : string) (chats : list Chat) :
  find (unknown_speaker sa sb) chats = None ->
  Forall (fun chat => chat_speaker chat = sa \/ chat_speaker chat = sb) chats.
Proof.
  induction chats as [|chat chats IH]; cbn; intros H; constructor.
  - destruct (unknown_speaker sa sb chat) eqn:U; [discriminate H|].
    unfold unknown_speaker, known_speaker in U.
    apply negb_false_iff, orb_prop in U.
    destruct U as [U|U]; apply String.eqb_eq in U; auto.
  - destruct (unknown_speaker sa sb chat); [discriminate H | now apply IH].
Qed.

(** X8. When the two declared speakers carry the same label, the second
    branch of the splitter is never taken: whenever the split succeeds, the
    first sequence holds the message of every turn of the segment, in order,
    and the second sequence is empty. *)
Theorem same_label_leaves_second_sequence_empty (speaker : string)
    (ts : jvalue) (chats : list Chat)
    (messages messages_reverse : list Message) :
  split_chats speaker speaker ts chats [] []
    = Returns (messages, messages_reverse) ->
  messages = map (message_of ts) chats /\ messages_reverse = [].
Proof.
  rewrite split_chats_spec.
  destruct (find _ chats) eqn:F; [discriminate|].
  intros H. inversion H; subst; clear H. cbn [app]. split.
  - f_equal. apply find_unknown_known in F.
    induction F as [|chat chats Hc _ IH]; cbn; [reflexivity|].
    unfold to_first at 1.
    replace (String.eqb (chat_speaker chat) speaker) with true
      by (symmetry; apply String.eqb_eq; tauto).
    now rewrite IH.
  - rewrite filter_none; [reflexivity|].
    intros chat. unfold to_second.
    now destruct (String.eqb (chat_speaker chat) speaker).
Qed.

Section ProcessorShape.

Variable uuid5 : string -> string.
Variable world : World.
Variable batch_size : Z.
Variable run_threads :
  (string -> list Message -> string -> M unit) ->
  thread_args -> thread_args -> M unit.

(** X9. The timestamp field of a segment is never itself taken for a
    segment: on a key of the form [<name>_date_time] the loop body does
    nothing, whatever is stored under it. *)
Theorem timestamp_keys_are_skipped (conv : Conversation)
    (ida idb name : string) (h : history) :
  process_key uuid5 world batch_size run_threads conv ida idb
    (name ++ "_date_time") h = (Returns tt, h).
Proof.
  unfold process_key.
  pose proof (skipped_date_time name) as Hskip. unfold skipped in Hskip.
  rewrite Hskip. reflexivity.
Qed.

(** X10. A segment whose [_date_time] sibling is missing from the
    conversation makes the loop body raise [KeyError] on that key before
    anything is called, even before the segment itself is read; and when
    the key is one of the conversation's, [process_conversation] raises. *)
Theorem missing_timestamp_raises_key_error (item : Item) (idx : Z)
    (key : string) :
  let conv := conversation item in
  skipped key = false ->
  lookup (key ++ "_date_time") (entries conv) = None ->
  (forall ida idb h,
     process_key uuid5 world batch_size run_threads conv ida idb key h =
     (Raises (KeyError (key ++ "_date_time")), h)) /\
  (In key (keys conv) ->
   forall h, exists e,
     fst (process_conversation uuid5 world batch_size run_threads
            item idx h) = Raises e).
Proof.
  intros conv Hskip Hlookup.
  assert (Hbody : forall ida idb h,
    process_key uuid5 world batch_size run_threads conv ida idb key h =
    (Raises (KeyError (key ++ "_date_time")), h)).
  { intros ida idb h. unfold process_key.
    unfold skipped in Hskip. rewrite Hskip.
    unfold bind, lift, getitem.
    destruct (date_time_is_no_speaker_key key) as [-> ->].
    rewrite Hlookup. reflexivity. }
  split; [exact Hbody|].
  intros Hkey h. unfold process_conversation. unfold bind at 1.
  rewrite try_returns. set (h' := snd _). unfold bind at 1.
  destruct (@for_each_raises _
              (process_key uuid5 world batch_size run_threads conv
                 (speaker_a conv ++ "_" ++ str_int idx)
                 (speaker_b conv ++ "_" ++ str_int idx))
              key (keys conv) Hkey
              (fun h0 => ex_intro _ _ (f_equal fst (Hbody _ _ h0))) h')
    as [e He].
  destruct (for_each _ _ h') as [[[]|e'] h'']; cbn in He |- *;
    [discriminate He | eauto].
Qed.

End ProcessorShape.

Lemma getitem_raises (conv : Conversation) (key : string) (e : exn) :
  getitem conv key = Raises e -> e = KeyError key.
Proof.
  unfold getitem.
  destruct (String.eqb key "speaker_a"); [discriminate|].
  destruct (String.eqb key "speaker_b"); [discriminate|].
  destruct (lookup key (entries conv)); [discriminate|].
  intros H. now inversion H.
Qed.

Lemma turns_of_raises (v : jvalue) (e : exn) :
  turns_of v = Raises e -> exists msg, e = TypeError msg.
Proof.
  destruct v as [[|c s]|chats]; cbn; intros H; inversion H. eauto.
Qed.

(** A loop whose body returns exactly on the elements satisfying [P] and
    raises only exceptions satisfying [Q]. *)
Lemma for_each_outcome {A : Type} (body : A -> M unit)
    (P : A -> Prop) (Q : exn -> Prop) (xs : list A) :
  (forall x h, fst (body x h) = Returns tt <-> P x) ->
  (forall x h e, fst (body x h) = Raises e -> Q e) ->
  forall h,
    (fst (for_each xs body h) = Returns tt <-> Forall P xs) /\
    (forall e, fst (for_each xs body h) = Raises e -> Q e).
Proof.
  intros HP HQ. induction xs as [|x xs IH]; intros h; cbn [for_each].
  - split; [split; [constructor | reflexivity] | discriminate].
  - unfold bind. pose proof (HP x h) as HPx. pose proof (HQ x h) as HQx.
    destruct (body x h) as [[[]|e] h']; cbn [fst] in *.
    + destruct (IH h') as [IHr IHe]. split; [|exact IHe].
      rewrite IHr. split.
      * intros H. constructor; [now apply HPx | exact H].
      * intros H. now inversion H.
    + split.
      * split; [discriminate|].
        intros H. inversion H as [|? ? Hx _]. apply HPx in Hx. discriminate Hx.
      * intros e' H. inversion H; subst e'. now apply HQx.
Qed.

Section ProcessorOutcome.

Variable uuid5 : string -> string.
Variable world : World.
Variable batch_size : Z.
Variable run_threads :
  (string -> list Message -> string -> M unit) ->
  thread_args -> thread_args -> M unit.

(** [join] never raises: what fails inside a thread stays in that thread. *)
Hypothesis join_returns :
  forall target a b h, fst (run_threads target a b h) = Returns tt.

Lemma process_key_outcome (conv : Conversation) (ida idb key : string)
    (h : history) :
  let run :=
    process_key uuid5 world batch_size run_threads conv ida idb key h in
  (fst run = Returns tt <-> key_ok conv key) /\
  (forall e, fst run = Raises e -> data_error e /\ snd run = h).
Proof.
  cbn zeta. unfold process_key, key_ok.
  change (mem key ["speaker_a"; "speaker_b"]
          || contains "date" key || contains "timestamp" key)
    with (skipped key).
  destruct (skipped key) eqn:Hskip.
  { split; [split; auto | discriminate]. }
  unfold bind, lift.
  destruct (getitem conv (key ++ "_date_time")) as [ts|e] eqn:Hts.
  2:{ apply getitem_raises in Hts. subst e. split.
      - split; [discriminate|].
        intros [H|(ts & v & turns & H & _)]; discriminate H.
      - intros e H. inversion H; subst e. split; [exact I | reflexivity]. }
  destruct (getitem conv key) as [v|e] eqn:Hv.
  2:{ apply getitem_raises in Hv. subst e. split.
      - split; [discriminate|].
        intros [H|(ts' & v & turns & _ & H & _)]; discriminate H.
      - intros e H. inversion H; subst e. split; [exact I | reflexivity]. }
  destruct (turns_of v) as [turns|e] eqn:Hturns.
  2:{ destruct (turns_of_raises _ Hturns) as [msg ->]. split.
      - split; [discriminate|].
        intros [H|(ts' & v' & turns & _ & H & Ht & _)]; [discriminate H|].
        inversion H; subst v'. rewrite Hturns in Ht. discriminate Ht.
      - intros e H. inversion H; subst e. split; [exact I | reflexivity]. }
  rewrite split_chats_spec.
  destruct (find _ turns) as [chat|] eqn:F.
  - split.
    + split; [discriminate|].
      intros [H|(ts' & v' & turns' & Hts' & H & Ht & Hknown)];
        [discriminate H|].
      inversion H; subst v'. rewrite Hturns in Ht.
      inversion Ht; subst turns'.
      rewrite (find_unknown_none Hknown) in F. discriminate F.
    + intros e H. inversion H; subst e.
      split; [cbn; eauto | reflexivity].
  - split.
    + split; [|intros _; apply join_returns].
      intros _. right. exists ts, v, turns.
      conjuncts; auto. now apply find_unknown_known.
    + intros e H. rewrite join_returns in H. discriminate H.
Qed.

(** After its deletes [process_conversation] is the loop over the keys
    followed by the log line. *)
Lemma process_conversation_loop (item : Item) (idx : Z) (h : history) :
  let conv := conversation item in
  let body :=
    process_key uuid5 world batch_size run_threads conv
      (speaker_a conv ++ "_" ++ str_int idx)
      (speaker_b conv ++ "_" ++ str_int idx) in
  exists h',
    process_conversation uuid5 world batch_size run_threads item idx h =
    match for_each (keys conv) body h' with
    | (Returns _, h'') =>
        (Returns tt, h'' ++ [(Print "Messages added successfully", Done)])
    | (Raises e, h'') => (Raises e, h'')
    end.
Proof.
  cbn zeta. rewrite process_conversation_deletes. cbn zeta.
  destruct (fault world h _) as [e|];
    [|destruct (fault world (h ++ _) _) as [e|]];
    eexists; reflexivity.
Qed.

(** X11. Provided joining the threads never raises, [process_conversation]
    returns normally exactly when every key of the conversation is skipped
    or is a segment with its timestamp whose turns all carry the label of a
    declared speaker, whatever the service answers to the deletes and the
    uploads; and then its last call is the log line
    "Messages added successfully". *)
Theorem conversation_completes_iff_well_formed (item : Item) (idx : Z)
    (h : history) :
  let conv := conversation item in
  let run :=
    process_conversation uuid5 world batch_size run_threads item idx h in
  (fst run = Returns tt <-> Forall (key_ok conv) (keys conv)) /\
  (fst run = Returns tt ->
   exists before,
     snd run = before ++ [(Print "Messages added successfully", Done)]).
Proof.
  cbn zeta. destruct (process_conversation_loop item idx h) as [h' ->].
  set (body := process_key uuid5 world batch_size run_threads
                 (conversation item)
                 (speaker_a (conversation item) ++ "_" ++ str_int idx)
                 (speaker_b (conversation item) ++ "_" ++ str_int idx)).
  destruct (@for_each_outcome _ body (key_ok (conversation item)) data_error
              (keys (conversation item))
              (fun x h0 => proj1 (process_key_outcome _ _ _ x h0))
              (fun x h0 e H =>
                 proj1 (proj2 (process_key_outcome _ _ _ x h0) e H)) h')
    as [Hr _].
  destruct (for_each _ body h') as [[[]|e] h'']; cbn [fst snd] in *.
  - split; [|eauto].
    split; intros _; [now apply Hr | reflexivity].
  - split; [|discriminate].
    split; [discriminate|]. intros H. apply Hr in H. discriminate H.
Qed.

(** X12. Provided joining the threads never raises, the only exceptions
    [process_conversation] lets out are those of the data: the [ValueError]
    of an unknown speaker, the [KeyError] of a missing key, the [TypeError]
    of a segment that is a string.  No failure of the service, neither of a
    delete nor of an upload, ever comes out of it. *)
Theorem conversation_raises_only_data_errors (item : Item) (idx : Z)
    (h : history) (e : exn) :
  fst (process_conversation uuid5 world batch_size run_threads item idx h)
    = Raises e ->
  data_error e.
Proof.
  destruct (process_conversation_loop item idx h) as [h' ->].
  set (body := process_key uuid5 world batch_size run_threads
                 (conversation item)
                 (speaker_a (conversation item) ++ "_" ++ str_int idx)
                 (speaker_b (conversation item) ++ "_" ++ str_int idx)).
  destruct (@for_each_outcome _ body (key_ok (conversation item)) data_error
              (keys (conversation item))
              (fun x h0 => proj1 (process_key_outcome _ _ _ x h0))
              (fun x h0 e H =>
                 proj1 (proj2 (process_key_outcome _ _ _ x h0) e H)) h')
    as [_ He].
  destruct (for_each _ body h') as [[[]|e'] h'']; cbn [fst] in *.
  - discriminate.
  - intros H. inversion H; subst e'. now apply He.
Qed.

End ProcessorOutcome.

(* ================================================================== *)
(** ** The identities a conversation touches *)
(* ================================================================== *)

Lemma one_after_the_other_returns
    (target : string -> list Message -> string -> M unit)
    (a b : thread_args) (h : history) :
  fst (one_after_the_other target a b h) = Returns tt.
Proof.
  unfold one_after_the_other, in_thread, bind, ret.
  rewrite try_returns. cbn [fst snd]. rewrite try_returns. reflexivity.
Qed.





Section Identities.

Variable uuid5 : string -> string.
Variable world : World.
Variable batch_size : Z.



End Identities.

(* ================================================================== *)
(** ** The names of the derived identities *)
(* ================================================================== *)










(* ================================================================== *)
(** ** More on the dataset driver *)
(* ================================================================== *)

Lemma slice_to (A : Type) (l : list A) (N : Z) :
  slice l None (Some N) =
  firstn (Z.to_nat (adjust_index (Z.of_nat (List.length l)) N)) l.
Proof. unfold slice. rewrite Z.sub_0_r. reflexivity. Qed.

Section DriverCaps.

Variable uuid5 : string -> string.
Variable world : World.
Variable batch_size : Z.
Variable run_threads :
  (string -> list Message -> string -> M unit) ->
  thread_args -> thread_args -> M unit.
Variable executor :
  Z -> (Item -> Z -> M unit) -> list (Item * Z) -> M unit.

(** The tasks the driver hands the pool, for loaded records. *)
Lemma process_all_conversations_kept (data : list Item) (max_workers : Z)
    (max_samples : option Z) (h : history) :
  data <> [] ->
  let len := Z.of_nat (List.length data) in
  let kept := firstn (Z.to_nat (kept_count len max_samples)) data in
  process_all_conversations uuid5 world batch_size run_threads executor
    (Some data) max_workers max_samples h =
  executor max_workers
    (process_conversation uuid5 world batch_size run_threads)
    (map (fun p => (snd p, fst p)) (enumerate kept)) h.
Proof.
  intros Hdata. cbn zeta. unfold process_all_conversations.
  destruct data as [|item data']; [now destruct Hdata|].
  cbn [data_truthy negb]. unfold samples_truthy, kept_count.
  destruct max_samples as [n|].
  - destruct (n =? 0) eqn:Hz; cbn [negb].
    + rewrite Nat2Z.id, firstn_all. reflexivity.
    + rewrite slice_to.
      set (L := Z.of_nat (List.length (item :: data'))).
      replace (adjust_index L n)
        with (if n <? 0 then Z.max 0 (L + n) else Z.min n L)
        by (unfold adjust_index; destruct (n <? 0); lia).
      reflexivity.
  - rewrite Nat2Z.id, firstn_all. reflexivity.
Qed.

(** X15. Whatever the cap, the driver hands the pool a prefix of the loaded
    records, each paired with its index: all of them without a cap, with a
    cap of zero and with a cap of at least their number; the first [N] for a
    smaller positive cap [N]; and all but the last [-N] for a negative cap
    [N]. *)
Theorem cap_keeps_a_prefix (data : list Item) (max_workers : Z)
    (max_samples : option Z) (h : history) :
  data <> [] ->
  let len := Z.of_nat (List.length data) in
  let kept := firstn (Z.to_nat (kept_count len max_samples)) data in
  process_all_conversations uuid5 world batch_size run_threads executor
    (Some data) max_workers max_samples h =
  executor max_workers
    (process_conversation uuid5 world batch_size run_threads)
    (map (fun p => (snd p, fst p)) (enumerate kept)) h /\
  0 <= kept_count len max_samples <= len /\
  (max_samples = None \/ max_samples = Some 0
   \/ (exists n, max_samples = Some n /\ len <= n) ->
   kept = data).
Proof.
  intros Hdata. cbn zeta. split; [|split].
  - now apply process_all_conversations_kept.
  - unfold kept_count. destruct max_samples as [n|]; [|lia].
    destruct (n =? 0); [lia|].
    destruct (n <? 0) eqn:Hneg;
      [apply Z.ltb_lt in Hneg | apply Z.ltb_ge in Hneg]; lia.
  - intros [->|[->|(n & -> & Hn)]]; unfold kept_count.
    + rewrite Nat2Z.id. apply firstn_all.
    + cbn. rewrite Nat2Z.id. apply firstn_all.
    + destruct (n =? 0); [rewrite Nat2Z.id; apply firstn_all|].
      replace (n <? 0) with false by (symmetry; apply Z.ltb_ge; lia).
      rewrite Z.min_r, Nat2Z.id by lia. apply firstn_all.
Qed.

(** X16. A negative cap whose size reaches the number of loaded records
    leaves none: although data is loaded, the driver hands the pool an empty
    list of tasks and no [ValueError] is raised. *)
Theorem negative_cap_can_leave_nothing (data : list Item) (N max_workers : Z)
    (h : history) :
  data <> [] ->
  N <= - Z.of_nat (List.length data) ->
  process_all_conversations uuid5 world batch_size run_threads executor
    (Some data) max_workers (Some N) h =
  executor max_workers
    (process_conversation uuid5 world batch_size run_threads) [] h.
Proof.
  intros Hdata HN.
  rewrite (process_all_conversations_kept max_workers (Some N) h Hdata).
  unfold kept_count.
  assert (0 < Z.of_nat (List.length data))
    by (destruct data; [now destruct Hdata | cbn; lia]).
  replace (N =? 0) with false by (symmetry; apply Z.eqb_neq; lia).
  replace (N <? 0) with true by (symmetry; apply Z.ltb_lt; lia).
  rewrite Z.max_l by lia. reflexivity.
Qed.

End DriverCaps.

(** X15 at a cap of minus one on two records: the first one is kept. *)
Lemma cap_keeps_a_prefix_witness :
  let data := [Sample.hi_yo; Sample.with_stranger] in
  let run :=
    process_all_conversations Sample.uuid_of Sample.calm 2
      one_after_the_other one_worker (Some data) default_max_workers
      (Some (-1)) [] in
  data <> [] /\
  run = one_worker default_max_workers
          (process_conversation Sample.uuid_of Sample.calm 2
             one_after_the_other)
          [(Sample.hi_yo, 0)] [] /\
  submissions (snd run) = [(Sample.hi_yo, 0)].
Proof.
  intros data run.
  assert (Hdata : data <> []) by discriminate.
  split; [exact Hdata|]. split; [|reflexivity].
  exact (proj1 (@cap_keeps_a_prefix Sample.uuid_of Sample.calm 2
                  one_after_the_other one_worker data default_max_workers
                  (Some (-1)) [] Hdata)).
Defined.

(** X16 at a cap of minus one on a single record: the pool gets no task,
    and with the tasks run one at a time the driver returns without a
    call. *)
Lemma negative_cap_can_leave_nothing_witness :
  let data := [Sample.hi_yo] in
  data <> [] /\
  -1 <= - Z.of_nat (List.length data) /\
  process_all_conversations Sample.uuid_of Sample.calm 2
    one_after_the_other one_worker (Some data) default_max_workers
    (Some (-1)) [] = (Returns tt, []).
Proof.
  intros data.
  assert (Hdata : data <> []) by discriminate.
  assert (HN : -1 <= - Z.of_nat (List.length data)) by (cbn; lia).
  split; [exact Hdata|]. split; [exact HN|].
  rewrite (@negative_cap_can_leave_nothing Sample.uuid_of Sample.calm 2
             one_after_the_other one_worker data (-1) default_max_workers
             [] Hdata HN).
  reflexivity.
Defined.

(** X8 at two declared speakers both called "A". *)
Lemma same_label_leaves_second_sequence_empty_witness :
  let chats := [mkChat "A" "hi"; mkChat "A" "yo"] in
  let ma := [mkMessage "user" "hi" "A" (JString "t1");
             mkMessage "user" "yo" "A" (JString "t1")] in
  split_chats "A" "A" (JString "t1") chats [] [] = Returns (ma, []) /\
  ma = map (message_of (JString "t1")) chats.
Proof.
  intros chats ma.
  assert (H : split_chats "A" "A" (JString "t1") chats [] []
              = Returns (ma, [])) by reflexivity.
  split; [exact H|].
  exact (proj1 (same_label_leaves_second_sequence_empty _ _ _ H)).
Defined.

(** X10 at a conversation whose only segment has no timestamp. *)
Lemma missing_timestamp_raises_key_error_witness :
  let item :=
    mkItem (mkConversation "A" "B" [("seg1", JTurns [mkChat "A" "hi"])]) in
  skipped "seg1" = false /\
  lookup "seg1_date_time" (entries (conversation item)) = None /\
  process_conversation Sample.uuid_of Sample.calm 2 one_after_the_other
    item 0 [] =
  (Raises (KeyError "seg1_date_time"),
   [(DeleteUser "uuid5:A_0memobase_client", Done);
    (DeleteUser "uuid5:B_0memobase_client", Done)]) /\
  forall h,
    process_key Sample.uuid_of Sample.calm 2 one_after_the_other
      (conversation item) "A_0" "B_0" "seg1" h =
    (Raises (KeyError "seg1_date_time"), h).
Proof.
  intros item.
  assert (Hskip : skipped "seg1" = false) by reflexivity.
  assert (Hlookup : lookup "seg1_date_time" (entries (conversation item))
                    = None) by reflexivity.
  conjuncts; [exact Hskip | exact Hlookup | reflexivity |].
  intros h.
  exact (proj1 (@missing_timestamp_raises_key_error Sample.uuid_of
                  Sample.calm 2 one_after_the_other item 0 "seg1"
                  Hskip Hlookup) "A_0" "B_0" h).
Defined.

(** X11 at the end-to-end conversation and a service that refuses every
    insert: the conversation still completes. *)
Lemma conversation_completes_iff_well_formed_witness :
  let w := Sample.failing Sample.is_insert in
  let run :=
    process_conversation Sample.uuid_of w 2 one_after_the_other
      Sample.hi_yo 0 [] in
  (forall target a b h, fst (one_after_the_other target a b h) = Returns tt) /\
  Forall (key_ok (conversation Sample.hi_yo))
         (keys (conversation Sample.hi_yo)) /\
  fst run = Returns tt /\
  sent (snd run) = [].
Proof.
  intros w run.
  assert (Hkeys : Forall (key_ok (conversation Sample.hi_yo))
                         (keys (conversation Sample.hi_yo))).
  { constructor; [left; reflexivity|].
    constructor; [left; reflexivity|].
    constructor; [|constructor; [left; reflexivity | constructor]].
    right. exists (JString "t1"),
                  (JTurns [mkChat "A" "hi"; mkChat "B" "yo"]),
                  [mkChat "A" "hi"; mkChat "B" "yo"].
    conjuncts; try reflexivity.
    constructor; [left; reflexivity|].
    constructor; [right; reflexivity | constructor]. }
  conjuncts; [exact one_after_the_other_returns | exact Hkeys | | reflexivity].
  exact (proj2 (proj1 (@conversation_completes_iff_well_formed
                         Sample.uuid_of w 2 one_after_the_other
                         one_after_the_other_returns Sample.hi_yo 0 []))
           Hkeys).
Defined.

(** X12 at the conversation with a turn of a speaker "C". *)
Lemma conversation_raises_only_data_errors_witness :
  let run :=
    process_conversation Sample.uuid_of Sample.calm 2 one_after_the_other
      Sample.with_stranger 7 [] in
  (forall target a b h, fst (one_after_the_other target a b h) = Returns tt) /\
  fst run = Raises (ValueError "Unknown speaker: C") /\
  data_error (ValueError "Unknown speaker: C").
Proof.
  intros run.
  assert (H : fst run = Raises (ValueError "Unknown speaker: C"))
    by reflexivity.
  conjuncts; [exact one_after_the_other_returns | exact H |].
  exact (@conversation_raises_only_data_errors Sample.uuid_of Sample.calm 2
           one_after_the_other one_after_the_other_returns
           Sample.with_stranger 7 [] _ H).
Defined.
